(** * NexaNeuron: session, entitlement and media utilities

    A shallow embedding of the state-carrying parts of the NexaNeuron
    front end, with the place of each part under [src/]:

    - [App.tsx]: the callback given to [onAuthStateChanged] (session
      resolution), [handleCoinsUpdate] and [handlePremiumUnlocked];
    - [unnamed/part_004] (the [ImageGenerator] component) and
      [components/VideoGenerator.tsx]: the two [handleSubmit] handlers that
      spend coins;
    - [components/TextToSpeech.tsx] (its [PremiumPage] component) and
      [components/PaymentModal.tsx]: the path that leads to
      [handlePremiumUnlocked];
    - [services/geminiService.ts]: [_processVideoToFrames];
    - [components/Logo.tsx] (its [LiveAgent] component): [encode] and
      [createBlob].

    Asynchronous handlers are embedded as sequential computations in a
    state-and-exception monad over an explicit [World]: the Firestore
    collection, the [localStorage] slot of the guest profile, React's
    [user] state and an oracle that says which remote calls fail.  An
    exception keeps every effect performed before it was thrown, as in
    JavaScript.  A handler reads the profile of the render it was created
    in; it is passed as an argument.  Coin balances are integers; the
    duration of a video and the audio samples are exact rationals next to
    [NaN] and the infinities. *)

From Stdlib Require Import ZArith QArith Qround String Ascii List Bool Lia.
From stdpp Require Import gmap strings list pretty.

Local Open Scope Z_scope.
Local Open Scope string_scope.

(** ** Exceptions and state *)

Module Eff.

Inductive outcome (A : Type) : Type :=
| Returned (a : A)
| Threw (message : string).
Arguments Returned {A} a.
Arguments Threw {A} message.

Section Monad.
Context {S : Type}.

Definition t (A : Type) : Type := S -> outcome A * S.

Definition ret {A} (a : A) : t A := fun s => (Returned a, s).

Definition bind {A B} (m : t A) (k : A -> t B) : t B :=
  fun s =>
    match m s with
    | (Returned a, s') => k a s'
    | (Threw e, s') => (Threw e, s')
    end.

Definition throw {A} (message : string) : t A := fun s => (Threw message, s).

(** [try { body } catch (err) { handler err }] *)
Definition try_catch {A} (body : t A) (handler : string -> t A) : t A :=
  fun s =>
    match body s with
    | (Returned a, s') => (Returned a, s')
    | (Threw e, s') => handler e s'
    end.

(** [try { body } finally { cleanup }]: the cleanup runs on both exits
    and the outcome of the body is kept (no cleanup below throws). *)
Definition try_finally {A} (body : t A) (cleanup : t unit) : t A :=
  fun s =>
    match body s with
    | (r, s') =>
        match cleanup s' with
        | (Returned _, s'') => (r, s'')
        | (Threw e, s'') => (Threw e, s'')
        end
    end.

Definition get : t S := fun s => (Returned s, s).
Definition modify (f : S -> S) : t unit := fun s => (Returned tt, f s).
End Monad.

Arguments t S A : clear implicits.

End Eff.

Import Eff.

Notation "x <- m ;; k" := (Eff.bind m (fun x => k))
  (at level 20, m at level 99, k at level 200, only parsing).
Notation "m ;;; k" := (Eff.bind m (fun _ => k))
  (at level 100, k at level 200, only parsing, right associativity).

(** ** Data model ([App.tsx], Firestore documents) *)

(** [interface UserProfile]; an optional field ([coins?], [isPremium?]) that
    is absent or [undefined] is [None], and so is a [null] string. *)
Record UserProfile : Type := mkUserProfile {
  uid : string;
  displayName : option string;
  email : option string;
  photoURL : option string;
  coins : option Z;
  isGuest : bool;
  isPremium : option bool
}.

(** The identity handed over by the identity provider ([currentUser]). *)
Record AuthUser : Type := mkAuthUser {
  au_uid : string;
  au_displayName : option string;
  au_email : option string;
  au_photoURL : option string
}.

(** A document of the [users] collection; a field the document does not
    have is [None]. *)
Record UserDoc : Type := mkUserDoc {
  doc_displayName : option string;
  doc_email : option string;
  doc_photoURL : option string;
  doc_lastLogin : option Z;
  doc_coins : option Z;
  doc_isPremium : option bool
}.

(** What is seen from outside the handlers. *)
Inductive Event : Type :=
| RemoteRead (id : string)
| RemoteWrite (id : string)
| GenerationCall (what : string)
| GenerationDone (what : string)
| CoinsSet (balance : Z).

Record World : Type := mkWorld {
  remote : gmap string UserDoc;        (* Firestore collection 'users' *)
  guestProfile : option UserProfile;   (* localStorage['guestProfile'] *)
  user : option UserProfile;           (* React state of App *)
  net : list bool;                     (* outcome of the next remote calls *)
  clock : Z;                           (* Date.now() *)
  events : list Event                  (* newest last *)
}.

Definition set_remote (f : gmap string UserDoc -> gmap string UserDoc) (w : World) : World :=
  mkWorld (f (remote w)) (guestProfile w) (user w) (net w) (clock w) (events w).
Definition set_guestProfile (g : option UserProfile) (w : World) : World :=
  mkWorld (remote w) g (user w) (net w) (clock w) (events w).
Definition set_user (u : option UserProfile) (w : World) : World :=
  mkWorld (remote w) (guestProfile w) u (net w) (clock w) (events w).
Definition set_net (l : list bool) (w : World) : World :=
  mkWorld (remote w) (guestProfile w) (user w) l (clock w) (events w).
Definition emit (e : Event) (w : World) : World :=
  mkWorld (remote w) (guestProfile w) (user w) (net w) (clock w) (events w ++ [e]).

Abbreviation App := (Eff.t World).

(** ** Firestore *)

Module Firestore.

(** The value of a field in an [updateDoc] call: a literal, or the
    sentinel [increment(n)]. *)
Inductive NumberField : Type :=
| literal (n : Z)
| increment (n : Z).

(** The object passed to [updateDoc]; [None] is a key that is not in it. *)
Record Updates : Type := mkUpdates {
  up_lastLogin : option Z;
  up_coins : option NumberField;
  up_isPremium : option bool
}.

Definition apply_number (old : option Z) (f : option NumberField) : option Z :=
  match f with
  | None => old
  | Some (literal n) => Some n
  | Some (increment n) => Some (default 0 old + n)
  end.

Definition apply_updates (u : Updates) (d : UserDoc) : UserDoc :=
  {| doc_displayName := doc_displayName d;
     doc_email := doc_email d;
     doc_photoURL := doc_photoURL d;
     doc_lastLogin := match up_lastLogin u with Some t => Some t | None => doc_lastLogin d end;
     doc_coins := apply_number (doc_coins d) (up_coins u);
     doc_isPremium := match up_isPremium u with Some b => Some b | None => doc_isPremium d end |}.

(** Every remote call first asks the oracle whether the network lets it
    through; an exhausted oracle lets everything through. *)
Definition request : App unit :=
  fun w =>
    match net w with
    | [] => (Returned tt, w)
    | true :: rest => (Returned tt, set_net rest w)
    | false :: rest => (Threw "FirebaseError: unavailable", set_net rest w)
    end.

(** [(await getDoc(ref))]: [exists()] is [is_Some], [data()] the content. *)
Definition getDoc (id : string) : App (option UserDoc) :=
  request ;;;
  Eff.modify (emit (RemoteRead id)) ;;;
  w <- Eff.get ;;
  Eff.ret (remote w !! id).

(** [await setDoc(ref, data)] creates or overwrites the document. *)
Definition setDoc (id : string) (data : UserDoc) : App unit :=
  request ;;;
  Eff.modify (fun w => emit (RemoteWrite id) (set_remote (insert id data) w)).

(** [await updateDoc(ref, updates)] fails on a document that does not
    exist and otherwise changes the named fields only. *)
Definition updateDoc (id : string) (u : Updates) : App unit :=
  request ;;;
  w <- Eff.get ;;
  match remote w !! id with
  | None => Eff.throw "FirebaseError: not-found"
  | Some d =>
      Eff.modify (fun w => emit (RemoteWrite id) (set_remote (insert id (apply_updates u d)) w))
  end.

End Firestore.

(** ** Session and entitlement ([App.tsx]) *)

Module Session.

Import Firestore.

Definition setUser (u : UserProfile) : App unit := Eff.modify (set_user (Some u)).

(** [localStorage.setItem('guestProfile', JSON.stringify(p))]; reading it
    back with [JSON.parse] gives the same fields, a field that was
    [undefined] being absent again. *)
Definition localStorage_setItem (p : UserProfile) : App unit :=
  Eff.modify (set_guestProfile (Some p)).
Definition localStorage_removeItem : App unit :=
  Eff.modify (set_guestProfile None).
Definition localStorage_getItem : App (option UserProfile) :=
  w <- Eff.get ;; Eff.ret (guestProfile w).

Definition Date_now : App Z := w <- Eff.get ;; Eff.ret (clock w).

(** The callback registered with [onAuthStateChanged]. *)
Definition onAuthStateChanged (currentUser : option AuthUser) : App unit :=
  match currentUser with
  | Some cu =>
      localStorage_removeItem ;;;
      userDoc <- getDoc (au_uid cu) ;;
      userData <-
        match userDoc with
        | Some data =>
            now <- Date_now ;;
            let updates :=
              {| up_lastLogin := Some now;
                 up_coins := match doc_coins data with None => Some (literal 100) | Some _ => None end;
                 up_isPremium := match doc_isPremium data with None => Some false | Some _ => None end |} in
            updateDoc (au_uid cu) updates ;;;
            getDoc (au_uid cu)
        | None =>
            now <- Date_now ;;
            let data :=
              {| doc_displayName := au_displayName cu;
                 doc_email := au_email cu;
                 doc_photoURL := au_photoURL cu;
                 doc_lastLogin := Some now;
                 doc_coins := Some 100;
                 doc_isPremium := Some false |} in
            setDoc (au_uid cu) data ;;;
            Eff.ret (Some data)
        end ;;
      setUser
        {| uid := au_uid cu;
           displayName := au_displayName cu;
           email := au_email cu;
           photoURL := au_photoURL cu;
           coins := userData ≫= doc_coins;
           isGuest := false;
           isPremium := userData ≫= doc_isPremium |}
  | None =>
      guestProfileRaw <- localStorage_getItem ;;
      match guestProfileRaw with
      | Some g => setUser g
      | None =>
          now <- Date_now ;;
          let newGuestProfile :=
            {| uid := "guest-" +:+ pretty now;
               displayName := Some "Guest";
               email := None;
               photoURL := None;
               coins := Some 10;
               isGuest := true;
               isPremium := Some false |} in
          localStorage_setItem newGuestProfile ;;;
          setUser newGuestProfile
      end
  end.

(** [{ ...user, coins: newBalance }] *)
Definition with_coins (c : option Z) (u : UserProfile) : UserProfile :=
  mkUserProfile (uid u) (displayName u) (email u) (photoURL u) c (isGuest u) (isPremium u).

(** [handleCoinsUpdate]; [user] is the profile the handler closed over. *)
Definition handleCoinsUpdate (user : option UserProfile) (newBalance : Z) : App unit :=
  match user with
  | Some user =>
      let updatedUser := with_coins (Some newBalance) user in
      Eff.modify (emit (CoinsSet newBalance)) ;;;
      setUser updatedUser ;;;
      if isGuest user then localStorage_setItem updatedUser else Eff.ret tt
  | None => Eff.ret tt
  end.

(** [handlePremiumUnlocked]; the timer that closes the premium page two
    seconds later changes none of the state modelled here. *)
Definition handlePremiumUnlocked (user : option UserProfile) : App unit :=
  match user with
  | Some user =>
      let updatedUser :=
        mkUserProfile (uid user) (displayName user) (email user) (photoURL user)
          (if isGuest user then coins user else None) (isGuest user) (Some true) in
      setUser updatedUser ;;;
      if isGuest user then localStorage_setItem updatedUser
      else updateDoc (uid user) {| up_lastLogin := None; up_coins := None; up_isPremium := Some true |}
  | None => Eff.ret tt
  end.


End Session.

(** ** Strings of the panels *)

(** The ASCII part of ECMAScript's white space and line terminators. *)
Definition is_white_space (c : ascii) : bool :=
  match nat_of_ascii c with
  | 9%nat | 10%nat | 11%nat | 12%nat | 13%nat | 32%nat => true
  | _ => false
  end.

(** [!s.trim()]: nothing is left once the white space at both ends is gone. *)
Fixpoint trim_is_empty (s : string) : bool :=
  match s with
  | EmptyString => true
  | String c rest => is_white_space c && trim_is_empty rest
  end.

(** [hay.includes(needle)] *)
Definition includes (hay needle : string) : bool :=
  match String.index 0 needle hay with Some _ => true | None => false end.

(** The answer of a promise of the AI gateway. *)
Inductive Reply (A : Type) : Type :=
| Fulfilled (value : A)
| Rejected (message : string).
Arguments Fulfilled {A} value.
Arguments Rejected {A} message.

(** A computation on the application state, run from a handler that also
    owns the state [P] of its panel. *)
Definition inApp {P A : Type} (m : App A) : Eff.t (World * P) A :=
  fun s =>
    match m (fst s) with
    | (r, w') => (r, (w', snd s))
    end.

Definition setPanel {P : Type} (f : P -> P) : Eff.t (World * P) unit :=
  Eff.modify (fun s => (fst s, f (snd s))).

(** [await promise] *)
Definition await {S A : Type} (r : Reply A) : Eff.t S A :=
  match r with
  | Fulfilled v => Eff.ret v
  | Rejected e => Eff.throw e
  end.

(** ** The coin gate and the debit shared by the paid panels *)

Module Entitlement.

Import Firestore Session.

(** [const isPremium = user?.isPremium ?? false] *)
Definition isPremiumOf (user : option UserProfile) : bool :=
  default false (user ≫= isPremium).

(** [const hasEnoughCoins =
      user ? (isPremium || (user.coins ?? 0) >= COST) : false] *)
Definition hasEnoughCoins (COST : Z) (user : option UserProfile) : bool :=
  match user with
  | Some u => isPremiumOf user || (COST <=? default 0 (coins u))%Z
  | None => false
  end.

(** The block [if (!isPremium) { ... onUpdateCoins(newBalance) }] that
    both handlers run once their generation call has returned; they differ
    in the cost constant only.  [onUpdateCoins] is [handleCoinsUpdate] of
    the render that passed [user] to the panel. *)
Definition debit (COST : Z) (user : UserProfile) : App unit :=
  if isPremiumOf (Some user) then Eff.ret tt
  else
    let newBalance := default 0 (coins user) - COST in
    (if isGuest user then Eff.ret tt
     else updateDoc (uid user)
            {| up_lastLogin := None; up_coins := Some (increment (- COST)); up_isPremium := None |}) ;;;
    handleCoinsUpdate (Some user) newBalance.

End Entitlement.

(** ** [ImageGenerator.tsx] *)

Module ImageGenerator.

Import Entitlement.

Definition IMAGE_COST : Z := 5.

Record Panel : Type := mkPanel {
  prompt : string;
  aspectRatio : string;
  legacy : string;
  numberOfImages : Z;
  images : list string;
  loading : bool;
  error : string
}.

Definition setImages (l : list string) (p : Panel) : Panel :=
  mkPanel (prompt p) (aspectRatio p) (legacy p) (numberOfImages p) l (loading p) (error p).
Definition setLoading (b : bool) (p : Panel) : Panel :=
  mkPanel (prompt p) (aspectRatio p) (legacy p) (numberOfImages p) (images p) b (error p).
Definition setError (e : string) (p : Panel) : Panel :=
  mkPanel (prompt p) (aspectRatio p) (legacy p) (numberOfImages p) (images p) (loading p) e.

(** [const finalPrompt =
      legacy !== 'Default' ? `${prompt}, style: ${legacy}` : prompt] *)
Definition finalPrompt (p : Panel) : string :=
  if String.eqb (legacy p) "Default" then prompt p
  else prompt p +:+ ", style: " +:+ legacy p.

Section Handler.

(** [geminiService.generateImage(prompt, aspectRatio, numberOfImages)] *)
Variable generateImage : string -> string -> Z -> Reply (list string).

Definition handleSubmit (user : option UserProfile) : Eff.t (World * Panel) unit :=
  s <- Eff.get ;;
  let p := snd s in
  match user with
  | None => Eff.ret tt
  | Some u =>
      if trim_is_empty (prompt p) || loading p then Eff.ret tt
      else if negb (hasEnoughCoins IMAGE_COST user) then
        setPanel (setError ("You need at least " +:+ pretty IMAGE_COST
                    +:+ " coins to generate images. You have "
                    +:+ pretty (default 0 (coins u)) +:+ "."))
      else
        setPanel (setLoading true) ;;;
        setPanel (setImages []) ;;;
        setPanel (setError EmptyString) ;;;
        Eff.try_finally
          (Eff.try_catch
             (inApp (Eff.modify (emit (GenerationCall "generateImage"))) ;;;
              imageUrls <- await (generateImage (finalPrompt p) (aspectRatio p) (numberOfImages p)) ;;
              inApp (Eff.modify (emit (GenerationDone "generateImage"))) ;;;
              setPanel (setImages imageUrls) ;;;
              inApp (debit IMAGE_COST u))
             (fun err =>
                setPanel (setError "An error occurred while generating the images. Please try again.")))
          (setPanel (setLoading false))
  end.

End Handler.

End ImageGenerator.

(** ** [VideoGenerator.tsx] *)

Module VideoGenerator.

Import Entitlement.

Definition VIDEO_COST : Z := 20.

Definition loadingMessages : list string :=
  [ "Warming up the digital director's chair...";
    "Casting pixels for their roles...";
    "Storyboarding the digital narrative...";
    "Rendering the first few frames...";
    "The AI is checking the lighting...";
    "Composing the digital symphony...";
    "This is taking a moment, great things are coming...";
    "Finalizing the special effects...";
    "Almost ready for the premiere..." ].

Inductive GenerationMode : Type := text_to_video | image_to_video.
Inductive AudioMode : Type := audio_none | audio_upload | audio_tts.

Record File : Type := mkFile { file_name : string; file_type : string }.

Record Panel : Type := mkPanel {
  mode : GenerationMode;
  prompt : string;
  image : option File;
  aspectRatio : string;
  legacy : string;
  duration : Z;
  videoUrl : option string;
  loading : bool;
  loadingMessage : string;
  error : string;
  hasApiKey : bool;
  isCheckingKey : bool;
  audioMode : AudioMode;
  audioFile : option File;
  ttsPrompt : string;
  ttsVoice : string;
  audioUrl : option string
}.

Definition setVideoUrl (v : option string) (p : Panel) : Panel :=
  mkPanel (mode p) (prompt p) (image p) (aspectRatio p) (legacy p) (duration p) v
    (loading p) (loadingMessage p) (error p) (hasApiKey p) (isCheckingKey p)
    (audioMode p) (audioFile p) (ttsPrompt p) (ttsVoice p) (audioUrl p).
Definition setAudioUrl (a : option string) (p : Panel) : Panel :=
  mkPanel (mode p) (prompt p) (image p) (aspectRatio p) (legacy p) (duration p) (videoUrl p)
    (loading p) (loadingMessage p) (error p) (hasApiKey p) (isCheckingKey p)
    (audioMode p) (audioFile p) (ttsPrompt p) (ttsVoice p) a.
Definition setLoading (b : bool) (p : Panel) : Panel :=
  mkPanel (mode p) (prompt p) (image p) (aspectRatio p) (legacy p) (duration p) (videoUrl p)
    b (loadingMessage p) (error p) (hasApiKey p) (isCheckingKey p)
    (audioMode p) (audioFile p) (ttsPrompt p) (ttsVoice p) (audioUrl p).
Definition setLoadingMessage (m : string) (p : Panel) : Panel :=
  mkPanel (mode p) (prompt p) (image p) (aspectRatio p) (legacy p) (duration p) (videoUrl p)
    (loading p) m (error p) (hasApiKey p) (isCheckingKey p)
    (audioMode p) (audioFile p) (ttsPrompt p) (ttsVoice p) (audioUrl p).
Definition setError (e : string) (p : Panel) : Panel :=
  mkPanel (mode p) (prompt p) (image p) (aspectRatio p) (legacy p) (duration p) (videoUrl p)
    (loading p) (loadingMessage p) e (hasApiKey p) (isCheckingKey p)
    (audioMode p) (audioFile p) (ttsPrompt p) (ttsVoice p) (audioUrl p).
Definition setHasApiKey (b : bool) (p : Panel) : Panel :=
  mkPanel (mode p) (prompt p) (image p) (aspectRatio p) (legacy p) (duration p) (videoUrl p)
    (loading p) (loadingMessage p) (error p) b (isCheckingKey p)
    (audioMode p) (audioFile p) (ttsPrompt p) (ttsVoice p) (audioUrl p).

(** [isGenerateDisabled] *)
Definition isGenerateDisabled (p : Panel) (user : option UserProfile) : bool :=
  loading p || isCheckingKey p || negb (hasApiKey p) || trim_is_empty (prompt p)
  || (match mode p with image_to_video => negb (bool_decide (is_Some (image p))) | text_to_video => false end)
  || negb (bool_decide (is_Some user)) || negb (hasEnoughCoins VIDEO_COST user).

(** [const finalPrompt =
      legacy !== 'Default' ? `${prompt}, style: ${legacy}` : prompt] *)
Definition finalPrompt (p : Panel) : string :=
  if String.eqb (legacy p) "Default" then prompt p
  else prompt p +:+ ", style: " +:+ legacy p.

Section Handler.

(** [geminiService.generateVideo(prompt, aspectRatio, image, duration)] *)
Variable generateVideo : string -> string -> option File -> Z -> Reply string.
(** [geminiService.generateSpeechAndGetUrl(text, voice)] *)
Variable generateSpeechAndGetUrl : string -> string -> Reply string.
(** [URL.createObjectURL(file)] *)
Variable createObjectURL : File -> string.

(** The branch the audio promise takes:
    [audioMode === 'upload' && audioFile], then
    [audioMode === 'tts' && ttsPrompt.trim()], then [null]. *)
Definition speaks (p : Panel) : bool :=
  match audioMode p, audioFile p with
  | audio_upload, Some _ => false
  | audio_tts, _ => negb (trim_is_empty (ttsPrompt p))
  | _, _ => false
  end.

(** What the audio promise settles to. *)
Definition audioReply (p : Panel) : Reply (option string) :=
  match audioMode p, audioFile p with
  | audio_upload, Some f => Fulfilled (Some (createObjectURL f))
  | _, _ =>
      if speaks p then
        match generateSpeechAndGetUrl (ttsPrompt p) (ttsVoice p) with
        | Fulfilled u => Fulfilled (Some u)
        | Rejected e => Rejected e
        end
      else Fulfilled None
  end.

(** [const audioPromise = (async () => { ... })()]: the speech request
    goes out when the promise is built. *)
Definition audioPromise (p : Panel) : Eff.t (World * Panel) (Reply (option string)) :=
  (if speaks p then inApp (Eff.modify (emit (GenerationCall "generateSpeech")))
   else Eff.ret tt) ;;;
  Eff.ret (audioReply p).

(** [await Promise.all([videoPromise, audioPromise])]; when both reject,
    the video's rejection is taken as the one that settles first. *)
Definition await_all (v : Reply string) (a : Reply (option string))
  : Eff.t (World * Panel) (string * option string) :=
  match v, a with
  | Fulfilled gv, Fulfilled ga => Eff.ret (gv, ga)
  | Rejected e, _ => Eff.throw e
  | _, Rejected e => Eff.throw e
  end.

Definition handleSubmit (user : option UserProfile) : Eff.t (World * Panel) unit :=
  s <- Eff.get ;;
  let p := snd s in
  match user with
  | None => Eff.ret tt
  | Some u =>
      if isGenerateDisabled p user then Eff.ret tt
      else if negb (hasEnoughCoins VIDEO_COST user) then
        setPanel (setError ("You need at least " +:+ pretty VIDEO_COST
                    +:+ " coins to generate videos. You have "
                    +:+ pretty (default 0 (coins u)) +:+ "."))
      else
        setPanel (setLoading true) ;;;
        setPanel (setVideoUrl None) ;;;
        setPanel (setAudioUrl None) ;;;
        setPanel (setError EmptyString) ;;;
        setPanel (setLoadingMessage (default EmptyString (head loadingMessages))) ;;;
        inApp (Eff.modify (emit (GenerationCall "generateVideo"))) ;;;
        let videoPromise := generateVideo (finalPrompt p) (aspectRatio p) (image p) (duration p) in
        audio <- audioPromise p ;;
        Eff.try_finally
          (Eff.try_catch
             (generated <- await_all videoPromise audio ;;
              inApp (Eff.modify (emit (GenerationDone "generateVideo"))) ;;;
              setPanel (setVideoUrl (Some (fst generated))) ;;;
              (match snd generated with
               | Some a => setPanel (setAudioUrl (Some a))
               | None => Eff.ret tt
               end) ;;;
              inApp (debit VIDEO_COST u))
             (fun err =>
                if includes err "Requested entity was not found" then
                  setPanel (setHasApiKey false) ;;;
                  setPanel (setError "API Key error. Please re-select your API key and try again.")
                else
                  setPanel (setError "An error occurred during generation.")))
          (setPanel (setLoading false))
  end.

End Handler.

End VideoGenerator.

(** ** [PremiumPage.tsx] and [PaymentModal.tsx] *)

Module PremiumPage.

Import Session.

Record Plan : Type := mkPlan {
  title : string;
  price : string;
  amount : Z
}.

(** The state of the page and of the modal it mounts. *)
Record Page : Type := mkPage {
  selectedPlan : option Plan;
  isProcessing : bool;
  paymentSuccess : bool
}.

(** The page as [App] mounts it. *)
Definition mounted : Page := mkPage None false false.

(** [handleChoosePlan] *)
Definition handleChoosePlan (user : UserProfile) (plan : Plan) : Eff.t (World * Page) unit :=
  if default false (isPremium user) then Eff.ret tt
  else setPanel (fun p => mkPage (Some plan) (isProcessing p) (paymentSuccess p)).

(** [PaymentModal.handleConfirmPayment], at the end of its three-second
    timer. *)
Definition handleConfirmPayment (onPaymentSuccess : App unit) : Eff.t (World * Page) unit :=
  setPanel (fun p => mkPage (selectedPlan p) true (paymentSuccess p)) ;;;
  setPanel (fun p => mkPage (selectedPlan p) false (paymentSuccess p)) ;;;
  setPanel (fun p => mkPage (selectedPlan p) (isProcessing p) true) ;;;
  inApp onPaymentSuccess.

(** A press on "I Have Completed The Payment": the modal is rendered
    only under [selectedPlan &&], and the button only while the payment is
    neither processing nor done. *)
Definition confirmButton (onPaymentSuccess : App unit) : Eff.t (World * Page) unit :=
  s <- Eff.get ;;
  match selectedPlan (snd s) with
  | Some _ =>
      if paymentSuccess (snd s) || isProcessing (snd s) then Eff.ret tt
      else handleConfirmPayment onPaymentSuccess
  | None => Eff.ret tt
  end.

(** One pass through the premium page: [App] renders it under
    [isPremiumPageOpen && user] with the current profile and
    [onPremiumUnlocked = handlePremiumUnlocked]; the visitor chooses a plan
    and confirms the payment. *)
Definition unlockPremium (plan : Plan) : App unit :=
  fun w =>
    match user w with
    | None => (Returned tt, w)
    | Some u =>
        match (handleChoosePlan u plan ;;;
               confirmButton (handlePremiumUnlocked (Some u))) (w, mounted) with
        | (r, (w', _)) => (r, w')
        end
    end.

End PremiumPage.

(** ** ECMAScript numbers *)

Module JS.

(** A [number]: the finite values are rationals, next to [NaN] and the
    two infinities. *)
Inductive number : Type :=
| finite (q : Q)
| NaN
| Infinity
| NegInfinity.

Definition isFinite (x : number) : bool :=
  match x with finite _ => true | _ => false end.

(** [x <= 0] *)
Definition le_zero (x : number) : bool :=
  match x with
  | finite q => Qle_bool q 0
  | NegInfinity => true
  | NaN | Infinity => false
  end.

(** [x * 32768].  A sample read from a [Float32Array] times [2^15] is
    exact in double precision, so the product of rationals is the number the
    code computes; [NaN] and the infinities are kept. *)
Definition scale (x : number) : number :=
  match x with
  | finite q => finite (q * 32768)
  | other => other
  end.

(** The integral part, rounding towards zero. *)
Definition truncate (q : Q) : Z := Z.quot (Qnum q) (Zpos (Qden q)).

(** [ToInt16], the conversion on a store into an [Int16Array]. *)
Definition ToInt16 (x : number) : Z :=
  match x with
  | finite q =>
      let int16bit := truncate q mod 65536 in
      if (32768 <=? int16bit)%Z then int16bit - 65536 else int16bit
  | _ => 0
  end.

End JS.

(** ** Frame extraction ([geminiService.ts]) *)

Module GeminiService.

Import JS.

Inductive VideoSource : Type :=
| SourceFile (name : string)
| SourceURL (url : string).

(** What a [<video>] element does once its [src] is set. *)
Record Video : Type := mkVideo {
  loadedmetadata : bool;          (* false: the 'error' event fires instead *)
  duration : number;
  seeked : Q -> bool;             (* false: 'error' instead of 'seeked' *)
  toBlob : Q -> option string     (* base64 JPEG of the frame drawn at a time;
                                     None: no blob, or the reader fails *)
}.

Inductive FrameEvent : Type :=
| Seek (time : Q)
| Draw (time : Q)
| Progress (p : Q).

Record Browser : Type := mkBrowser {
  objectURLs : gset nat;          (* object URLs not yet revoked *)
  minted : nat;                   (* object URLs created so far *)
  trace : list FrameEvent         (* newest last *)
}.

Definition log (e : FrameEvent) (b : Browser) : Browser :=
  mkBrowser (objectURLs b) (minted b) (trace b ++ [e]).

Inductive VideoURL : Type :=
| ObjectURL (handle : nat)
| PlainURL (url : string).

Definition URL_createObjectURL : Eff.t Browser VideoURL :=
  fun b => (Returned (ObjectURL (minted b)),
            mkBrowser ({[ minted b ]} ∪ objectURLs b) (S (minted b)) (trace b)).

Definition URL_revokeObjectURL (u : VideoURL) : Eff.t Browser unit :=
  match u with
  | ObjectURL h => Eff.modify (fun b => mkBrowser (objectURLs b ∖ {[ h ]}) (minted b) (trace b))
  | PlainURL _ => Eff.ret tt
  end.

Definition isFile (src : VideoSource) : bool :=
  match src with SourceFile _ => true | SourceURL _ => false end.

(** [(duration / frameCount) * i] *)
Definition frame_time (duration : Q) (frameCount i : nat) : Q :=
  ((duration / inject_Z (Z.of_nat frameCount)) * inject_Z (Z.of_nat i))%Q.

(** [Promise.all(framePromises)] *)
Fixpoint Promise_all {S : Type} (ps : list (Reply string)) : Eff.t S (list string) :=
  match ps with
  | [] => Eff.ret []
  | Fulfilled v :: rest => vs <- Promise_all rest ;; Eff.ret (v :: vs)
  | Rejected e :: _ => Eff.throw e
  end.

Section Extraction.

(** The element the browser builds for a source. *)
Variable element : VideoSource -> Video.

(** [for (let i = ...; i < frameCount; i++)], with [todo] rounds left. *)
Fixpoint capture (v : Video) (duration : Q) (frameCount todo i : nat)
    (framePromises : list (Reply string)) : Eff.t Browser (list (Reply string)) :=
  match todo with
  | O => Eff.ret framePromises
  | S todo' =>
      let time := frame_time duration frameCount i in
      Eff.modify (log (Seek time)) ;;;
      (if seeked v time then Eff.ret tt
       else Eff.throw "Error seeking video to extract frame.") ;;;
      Eff.modify (log (Draw time)) ;;;
      let framePromise :=
        match toBlob v time with
        | Some data => Fulfilled data
        | None => Rejected "Failed to extract video frame, possibly due to CORS policy."
        end in
      Eff.modify (log (Progress ((inject_Z (Z.of_nat (i + 1)) / inject_Z (Z.of_nat frameCount)) * 50)%Q)) ;;;
      capture v duration frameCount todo' (S i) (framePromises ++ [framePromise])
  end.

(** The block under [try]: wait for the metadata, check the duration, run
    the loop and wait for the frames.  Past the guard the duration is a
    finite number; the last case of the [match] is never reached. *)
Definition readFrames (videoElement : Video) (frameCount : nat) : Eff.t Browser (list string) :=
  (if loadedmetadata videoElement then Eff.ret tt
   else Eff.throw "Could not load video. This may be due to web security (CORS) restrictions. Try a different URL or upload the file directly.") ;;;
  let duration := duration videoElement in
  if le_zero duration || negb (isFinite duration) then
    Eff.throw "Video duration is invalid or could not be determined."
  else
    match duration with
    | finite d =>
        framePromises <- capture videoElement d frameCount frameCount 0 [] ;;
        Promise_all framePromises
    | _ => Eff.throw "Video duration is invalid or could not be determined."
    end.

Definition _processVideoToFrames (videoSource : VideoSource) (frameCount : nat)
  : Eff.t Browser (list string) :=
  videoURL <- (match videoSource with
               | SourceFile _ => URL_createObjectURL
               | SourceURL u => Eff.ret (PlainURL u)
               end) ;;
  let videoElement := element videoSource in
  Eff.try_finally
    (readFrames videoElement frameCount)
    (if isFile videoSource then URL_revokeObjectURL videoURL else Eff.ret tt).

End Extraction.

End GeminiService.

(** ** PCM capture of the live agent ([LiveAgent.tsx]) *)

Module LiveAgent.

Import JS.

Definition base64_alphabet : string :=
  "ABCDEFGHIJKLMNOPQRSTUVWXYZabcdefghijklmnopqrstuvwxyz0123456789+/".

Definition base64_digit (n : Z) : string :=
  match String.get (Z.to_nat n) base64_alphabet with
  | Some c => String c EmptyString
  | None => EmptyString
  end.

(** [btoa] on the binary string of a byte array. *)
Fixpoint btoa (bytes : list Z) : string :=
  match bytes with
  | a :: b :: c :: rest =>
      base64_digit (a / 4) +:+ base64_digit ((a mod 4) * 16 + b / 16)
      +:+ base64_digit ((b mod 16) * 4 + c / 64) +:+ base64_digit (c mod 64)
      +:+ btoa rest
  | [a; b] =>
      base64_digit (a / 4) +:+ base64_digit ((a mod 4) * 16 + b / 16)
      +:+ base64_digit ((b mod 16) * 4) +:+ "="
  | [a] =>
      base64_digit (a / 4) +:+ base64_digit ((a mod 4) * 16) +:+ "=="
  | [] => EmptyString
  end.

(** [encode(bytes)] *)
Definition encode (bytes : list Z) : string := btoa bytes.

(** [int16[i] = data[i] * 32768] for every index. *)
Definition to_int16 (data : list number) : list Z :=
  map (fun sample => ToInt16 (scale sample)) data.

(** [new Uint8Array(int16.buffer)]: two bytes per sample, low byte first. *)
Definition buffer_bytes (int16 : list Z) : list Z :=
  flat_map (fun v => [v mod 256; (v / 256) mod 256]) int16.

Record Blob : Type := mkBlob { data : string; mimeType : string }.

Definition createBlob (samples : list number) : Blob :=
  {| data := encode (buffer_bytes (to_int16 samples));
     mimeType := "audio/pcm;rate=16000" |}.

End LiveAgent.

(** * Further parts of the code *)

(** ** The colour theme ([App.tsx]) *)

Module Theme.

Inductive Theme : Type := light | dark.

Definition name (t : Theme) : string :=
  match t with light => "light" | dark => "dark" end.

(** The initialiser of the [theme] state.  [storage] is [None] when there
    is no [window] or no [window.localStorage], and otherwise holds what
    [getItem('theme')] returns; [prefersDark] is the answer of the
    [(prefers-color-scheme: dark)] media query. *)
Definition initialTheme (storage : option (option string)) (prefersDark : bool) : Theme :=
  match storage with
  | Some storedTheme =>
      match storedTheme with
      | Some s =>
          if String.eqb s "light" then light
          else if String.eqb s "dark" then dark
          else if prefersDark then dark else dark
      | None => if prefersDark then dark else dark
      end
  | None => dark
  end.

(** [toggleTheme] *)
Definition toggleTheme (prevTheme : Theme) : Theme :=
  match prevTheme with dark => light | light => dark end.

(** The effect on [theme]: [localStorage.setItem('theme', theme)]. *)
Definition persist (t : Theme) : option string := Some (name t).

End Theme.

(** ** Selecting an API key ([VideoGenerator.tsx]) *)

Module ApiKey.


End ApiKey.

(** ** The rest of the gateway client ([services/geminiService.ts]) *)

Module Gateway.

Import JS GeminiService.

Local Open Scope list_scope.

(** [s] as a condition: a string is truthy when it is there and not empty. *)
Definition truthy (s : option string) : bool :=
  match s with
  | Some (String _ _) => true
  | _ => false
  end.

(** *** [groundedSearch] *)

Inductive Tool : Type := googleSearch | googleMaps.

Record LatLng : Type := mkLatLng { latitude : Q; longitude : Q }.

Record SearchConfig : Type := mkSearchConfig {
  tools : list Tool;
  toolConfig : option LatLng          (* toolConfig.retrievalConfig.latLng *)
}.

Record SearchRequest : Type := mkSearchRequest {
  search_model : string;
  search_contents : string;
  search_config : SearchConfig
}.

(** [chunk.web] or [chunk.maps]. *)
Record Place : Type := mkPlace {
  place_uri : option string;
  place_title : option string
}.

Record Chunk : Type := mkChunk { web : option Place; maps : option Place }.

Record Candidate : Type := mkCandidate {
  groundingChunks : option (option (list Chunk))
    (* groundingMetadata?.groundingChunks: no metadata, or no chunks in it *)
}.

Record SearchResponse : Type := mkSearchResponse {
  response_text : string;
  candidates : option (list Candidate)
}.

(** [interface GroundingSource] *)
Record GroundingSource : Type := mkGroundingSource { title : string; uri : string }.

Record SearchResult : Type := mkSearchResult {
  text : string;
  sources : list GroundingSource
}.

(** The callback of [groundingChunks.map]: [None] is [null]. *)
Definition sourceOf (chunk : Chunk) : option GroundingSource :=
  let source := match web chunk with Some p => Some p | None => maps chunk end in
  match source with
  | None => None
  | Some source =>
      if negb (truthy (place_uri source)) then None
      else
        let u := default EmptyString (place_uri source) in
        Some {| title := if truthy (place_title source)
                         then default EmptyString (place_title source) else u;
                uri := u |}
  end.

(** [response.candidates?.[0]?.groundingMetadata?.groundingChunks || []] *)
Definition chunksOf (response : SearchResponse) : list Chunk :=
  match candidates response with
  | Some (first :: _) =>
      match groundingChunks first with
      | Some (Some chunks) => chunks
      | _ => []
      end
  | _ => []
  end.

Section GroundedSearch.

(** [ai.models.generateContent] for a search request. *)
Variable generateContent : SearchRequest -> Reply SearchResponse.

Definition searchRequest (query : string) (useMaps : bool) (location : option LatLng)
  : SearchRequest :=
  let tools := [googleSearch] ++ (if useMaps then [googleMaps] else []) in
  let config :=
    {| tools := tools;
       toolConfig := if useMaps && bool_decide (is_Some location) then location else None |} in
  {| search_model := "gemini-2.5-flash"; search_contents := query; search_config := config |}.

Definition groundedSearch (query : string) (useMaps : bool) (location : option LatLng)
  : Reply SearchResult :=
  match generateContent (searchRequest query useMaps location) with
  | Rejected e => Rejected e
  | Fulfilled response =>
      (* [.map(...)] then [.filter(s => s !== null)] *)
      Fulfilled {| text := response_text response;
                   sources := omap sourceOf (chunksOf response) |}
  end.

End GroundedSearch.

(** *** [generateVideo] *)

Record ReferenceImage : Type := mkReferenceImage {
  ref_imageBytes : string;
  ref_mimeType : string;
  referenceType : string
}.

Record VideoConfig : Type := mkVideoConfig {
  numberOfVideos : Z;
  resolution : string;
  config_aspectRatio : string;
  config_duration : option string;
  config_referenceImages : option (list ReferenceImage)
}.

Record VideoPayload : Type := mkVideoPayload {
  video_model : string;
  video_prompt : string;
  video_config : VideoConfig;
  video_image : option (string * string)      (* imageBytes, mimeType *)
}.

(** A long-running operation as the service reports it; [op_uri] is
    [response?.generatedVideos?.[0]?.video?.uri]. *)
Record Operation : Type := mkOperation { done : bool; op_uri : option string }.

(** [referenceImages && referenceImages.length > 0] *)
Definition hasReferenceImages (referenceImages : option (list string)) : bool :=
  match referenceImages with
  | Some (_ :: _) => true
  | _ => false
  end.

(** The payload, with [base64Data] what the file reader gives for the
    overlay image.  [if (duration)] is false for [null] and for zero. *)
Definition videoPayload (prompt aspectRatio : string)
    (image : option (string * string)) (duration : option Z)
    (referenceImages : option (list string)) : VideoPayload :=
  let has := hasReferenceImages referenceImages in
  {| video_model := if has then "veo-3.1-generate-preview" else "veo-3.1-fast-generate-preview";
     video_prompt := prompt;
     video_config :=
       {| numberOfVideos := 1;
          resolution := "720p";
          config_aspectRatio := if has then "16:9" else aspectRatio;
          config_duration :=
            match duration with
            | Some d => if (d =? 0)%Z then None else Some (pretty d +:+ "s")
            | None => None
            end;
          config_referenceImages :=
            if has then
              Some (map (fun imgBase64 => mkReferenceImage imgBase64 "image/jpeg" "ASSET")
                      (default [] referenceImages))
            else None |};
     video_image := image |}.

Section GenerateVideo.

(** [ai.models.generateVideos], the answer to the [k]-th call of
    [ai.operations.getVideosOperation], [fetch(url)] followed by [blob()]
    and [URL.createObjectURL], and [process.env.API_KEY]. *)
Variable generateVideos : VideoPayload -> Reply Operation.
Variable getVideosOperation : nat -> Operation -> Reply Operation.
Variable download : string -> Reply string.
Variable API_KEY : string.

(** [while (!operation.done) { sleep 10 s; operation = await poll }], with
    [k] polls made so far.  [None]: still polling when the fuel is spent. *)
Fixpoint pollUntilDone (fuel k : nat) (operation : Operation)
  : option (Reply Operation * nat) :=
  if done operation then Some (Fulfilled operation, k)
  else
    match fuel with
    | O => None
    | S fuel' =>
        match getVideosOperation k operation with
        | Rejected e => Some (Rejected e, S k)
        | Fulfilled operation' => pollUntilDone fuel' (S k) operation'
        end
    end.

(** [generateVideo]; the result comes with the number of polls, each after
    a wait of 10000 ms. *)
Definition generateVideo (fuel : nat) (prompt aspectRatio : string)
    (image : option (string * string)) (duration : option Z)
    (referenceImages : option (list string)) : option (Reply string * nat) :=
  match generateVideos (videoPayload prompt aspectRatio image duration referenceImages) with
  | Rejected e => Some (Rejected e, O)
  | Fulfilled operation =>
      match pollUntilDone fuel O operation with
      | None => None
      | Some (Rejected e, polls) => Some (Rejected e, polls)
      | Some (Fulfilled operation, polls) =>
          if negb (truthy (op_uri operation)) then
            Some (Rejected "Video generation failed or returned no URI.", polls)
          else
            let downloadLink := default EmptyString (op_uri operation) in
            Some (download (downloadLink +:+ "&key=" +:+ API_KEY), polls)
      end
  end.

End GenerateVideo.

(** *** [analyzeVideo], [getVideoAnalysis], [getVideoFrames] *)

Inductive Part : Type :=
| text_part (text : string)
| inline_data (mimeType data : string).

Record AnalysisRequest : Type := mkAnalysisRequest {
  analysis_model : string;
  parts : list Part;
  responseMimeType : option string;
  responseSchema : option string
}.

(** The browser of the frame extractor, next to the requests sent to the
    gateway so far (newest last). *)
Definition Analysis : Type := (Browser * list AnalysisRequest)%type.

Definition inBrowser {A : Type} (m : Eff.t Browser A) : Eff.t Analysis A :=
  fun s =>
    match m (fst s) with
    | (r, b') => (r, (b', snd s))
    end.

Section Analyze.

Variable element : VideoSource -> Video.
(** [ai.models.generateContent] for an analysis request, giving
    [response.text]. *)
Variable generateContent : AnalysisRequest -> Reply string.

Definition onProgress (p : Q) : Eff.t Analysis unit :=
  inBrowser (Eff.modify (log (Progress p))).

Definition send (request : AnalysisRequest) : Eff.t Analysis string :=
  Eff.modify (fun s : Analysis => (fst s, snd s ++ [request])) ;;;
  await (generateContent request).

(** [[{ text: prompt }, ...frames.map(data => ({ inlineData: ... }))]] *)
Definition promptParts (prompt : string) (frames : list string) : list Part :=
  text_part prompt :: map (inline_data "image/jpeg") frames.

Definition getVideoFrames (videoSource : VideoSource) (frameCount : nat)
  : Eff.t Browser (list string) :=
  _processVideoToFrames element videoSource frameCount.

Definition analyzeVideo (prompt : string) (videoSource : VideoSource) : Eff.t Analysis string :=
  frames <- inBrowser (_processVideoToFrames element videoSource 10) ;;
  let parts := promptParts prompt frames in
  onProgress 51 ;;;
  response <- send (mkAnalysisRequest "gemini-2.5-pro" parts None None) ;;
  onProgress 100 ;;;
  Eff.ret response.

Definition getVideoAnalysis (videoSource : VideoSource) (prompt : string)
    (responseSchema : option string) : Eff.t Analysis string :=
  frames <- inBrowser (_processVideoToFrames element videoSource 15) ;;
  let parts := promptParts prompt frames in
  onProgress 51 ;;;
  let request :=
    match responseSchema with
    | Some schema => mkAnalysisRequest "gemini-2.5-pro" parts (Some "application/json") (Some schema)
    | None => mkAnalysisRequest "gemini-2.5-pro" parts None None
    end in
  response <- send request ;;
  onProgress 100 ;;;
  Eff.ret response.

End Analyze.

(** *** [sendMessageToChat], [generateImage], [generateSpeech] *)

Section Chat.

(** [fileToGenerativePart] and [chat.sendMessage], giving [response.text]. *)
Variable fileToGenerativePart : VideoGenerator.File -> Reply Part.
Variable sendMessage : list Part -> Reply string.

Definition messageParts (message : string) (image : option VideoGenerator.File)
  : Reply (list Part) :=
  let parts := if negb (trim_is_empty message) then [text_part message] else [] in
  match image with
  | Some file =>
      match fileToGenerativePart file with
      | Fulfilled imagePart => Fulfilled (parts ++ [imagePart])
      | Rejected e => Rejected e
      end
  | None => Fulfilled parts
  end.

Definition sendMessageToChat (message : string) (image : option VideoGenerator.File)
  : Reply string :=
  match messageParts message image with
  | Fulfilled parts => sendMessage parts
  | Rejected e => Rejected e
  end.

End Chat.

(** [generateImage]: the images of the response as data URLs. *)
Definition imageUrls (generatedImages : list string) : list string :=
  map (fun base64ImageBytes => "data:image/jpeg;base64," +:+ base64ImageBytes) generatedImages.

(** [generateSpeech], on [candidates?.[0]?.content?.parts?.[0]?.inlineData?.data]. *)
Definition generateSpeech (response : Reply (option string)) : Reply string :=
  match response with
  | Rejected e => Rejected e
  | Fulfilled base64Audio =>
      if negb (truthy base64Audio) then Rejected "No audio data received"
      else Fulfilled (default EmptyString base64Audio)
  end.

End Gateway.

(** ** Vocabulary of the statements *)

Local Open Scope list_scope.
Local Open Scope Z_scope.

(** [keeps I m]: whatever [m] does and however it ends, it leaves a state
    in [I] when started in one. *)
Definition keeps {S A} (I : S -> Prop) (m : Eff.t S A) : Prop :=
  forall s, I s -> I (snd (m s)).

(** The profile in memory and the stored guest profile are [u] and [g]. *)
Definition local_frame (u g : option UserProfile) (w : World) : Prop :=
  user w = u /\ guestProfile w = g.

(** No remote call still to come is refused by the network. *)
Definition reliable (w : World) : Prop := Forall (fun ok => ok = true) (net w).

(** The application state a panel handler leaves. *)
Definition world_after {P : Type} (r : Eff.outcome unit * (World * P)) : World := fst (snd r).

(** The panel state a handler leaves. *)
Definition panel_after {P : Type} (r : Eff.outcome unit * (World * P)) : P := snd (snd r).

(** [user.coins ?? 0] *)
Definition balance (u : UserProfile) : Z := default 0 (coins u).

(** Neither the balance in memory, nor the stored guest profile, nor the
    remote collection has changed. *)
Definition balances_unchanged (w w' : World) : Prop :=
  user w' = user w /\ guestProfile w' = guestProfile w /\ remote w' = remote w.


(** In a run of events, no write of a balance (remote or in memory) comes
    before a generation call has returned. *)
Fixpoint settled_before_debit (settled : bool) (l : list Event) : bool :=
  match l with
  | [] => true
  | GenerationDone _ :: rest => settled_before_debit true rest
  | RemoteWrite _ :: rest => settled && settled_before_debit settled rest
  | CoinsSet _ :: rest => settled && settled_before_debit settled rest
  | _ :: rest => settled_before_debit settled rest
  end.

Definition pay_on_success (l : list Event) : Prop := settled_before_debit false l = true.

Definition is_debit (e : Event) : bool :=
  match e with RemoteWrite _ | CoinsSet _ => true | _ => false end.



(** Two versions of a document that differ in [isPremium] at most. *)
Definition agree_off_isPremium (d d' : UserDoc) : Prop :=
  doc_displayName d' = doc_displayName d
  /\ doc_email d' = doc_email d
  /\ doc_photoURL d' = doc_photoURL d
  /\ doc_lastLogin d' = doc_lastLogin d
  /\ doc_coins d' = doc_coins d.

(** A duration that is not a finite number above zero. *)
Definition invalid_duration (x : JS.number) : Prop :=
  match x with
  | JS.finite q => (q <= 0)%Q
  | _ => True
  end.

(** The three events of one round of the capture loop. *)
Definition round (d : Q) (N i : nat) : list GeminiService.FrameEvent :=
  [ GeminiService.Seek (GeminiService.frame_time d N i);
    GeminiService.Draw (GeminiService.frame_time d N i);
    GeminiService.Progress ((inject_Z (Z.of_nat (i + 1)) / inject_Z (Z.of_nat N)) * 50)%Q ].

(** The promise of one frame. *)
Definition promise_of (o : option string) : Reply string :=
  match o with
  | Some data => Fulfilled data
  | None => Rejected "Failed to extract video frame, possibly due to CORS policy."
  end.

(** The browser once the source has its URL. *)
Definition opened (src : GeminiService.VideoSource) (b : GeminiService.Browser)
  : GeminiService.Browser :=
  match src with
  | GeminiService.SourceFile _ => snd (GeminiService.URL_createObjectURL b)
  | GeminiService.SourceURL _ => b
  end.

(** The time stamps of the frames drawn so far, oldest first. *)
Fixpoint drawn (t : list GeminiService.FrameEvent) : list Q :=
  match t with
  | [] => []
  | GeminiService.Draw time :: rest => time :: drawn rest
  | _ :: rest => drawn rest
  end.

(** ** Sample states *)

Module Sample.

Definition ada : AuthUser := mkAuthUser "ada" (Some "Ada") (Some "ada@example.org") None.

Definition guest_with (c : Z) : UserProfile :=
  mkUserProfile "guest-1700" (Some "Guest") None None (Some c) true (Some false).

(** The guest profile as it is created, with ten coins. *)
Definition guest : UserProfile := guest_with 10.

Definition member (c : Z) : UserProfile :=
  mkUserProfile "ada" (Some "Ada") (Some "ada@example.org") None (Some c) false (Some false).


(** A document written before the [coins] and [isPremium] fields existed. *)
Definition old_doc : UserDoc :=
  mkUserDoc (Some "Ada") (Some "ada@example.org") None (Some 1600) None None.

Definition doc (c : Z) : UserDoc :=
  mkUserDoc (Some "Ada") (Some "ada@example.org") None (Some 1600) (Some c) (Some false).

(** First load, nothing stored anywhere. *)
Definition fresh : World := mkWorld ∅ None None [] 1700 [].

(** A guest session holding [c] coins. *)
Definition guest_holding (c : Z) : World :=
  mkWorld ∅ (Some (guest_with c)) (Some (guest_with c)) [] 1700 [].

Definition as_guest : World := guest_holding 10.


(** An image panel ready to submit, and one for video. *)
Definition image_panel : ImageGenerator.Panel :=
  ImageGenerator.mkPanel "a red kite" "1:1" "Default" 4 [] false EmptyString.


(** A gateway that answers, and one that is down. *)
Definition image_ok (_ _ : string) (_ : Z) : Reply (list string) :=
  Fulfilled ["data:image/jpeg;base64,AAAA"].
Definition image_down (_ _ : string) (_ : Z) : Reply (list string) :=
  Rejected "503".

(** A ten-second clip that seeks and encodes without trouble: the frame
    drawn at a time is named after the time in quarter seconds. *)
Definition clip : GeminiService.Video :=
  GeminiService.mkVideo true (JS.finite 10) (fun _ => true)
    (fun time => Some ("frame" +:+ pretty (Qnum (Qred (time * 4))))).

(** A stream that reports no duration. *)
Definition stream : GeminiService.Video :=
  GeminiService.mkVideo true JS.Infinity (fun _ => true) (fun _ => Some "frame").

Definition browser : GeminiService.Browser := GeminiService.mkBrowser ∅ 0 [].

Definition monthly : PremiumPage.Plan := PremiumPage.mkPlan "Monthly" "499" 499.

Definition with_doc (d : UserDoc) (u : option UserProfile) : World :=
  mkWorld {[ "ada" := d ]} None u [] 1700 [].

End Sample.

(** ** Vocabulary of the further statements *)

(** A guest in memory is the guest in local storage. *)
Definition guest_synced (w : World) : Prop :=
  forall u, user w = Some u -> isGuest u = true -> guestProfile w = Some u.

(** A page reload: React's state starts empty, storage and the remote
    collection stay. *)
Definition reload (w : World) : World := set_user None w.

(** The profile a signed-out visitor gets when nothing is stored. *)
Definition new_guest (now : Z) : UserProfile :=
  mkUserProfile ("guest-" +:+ pretty now) (Some "Guest") None None (Some 10) true (Some false).

(** The balance in memory is the one in the member's remote document. *)
Definition mirrored (w : World) : Prop :=
  forall u d, user w = Some u -> isGuest u = false ->
    remote w !! uid u = Some d -> doc_coins d = coins u.

(** The state [w'] is [w] charged once with [COST] coins for [u]: the
    balance in memory is lowered, and with it the stored guest profile or the
    member's remote document, and nothing else. *)
Definition charged (COST : Z) (u : UserProfile) (w w' : World) : Prop :=
  Entitlement.isPremiumOf (Some u) = false
  /\ COST <= balance u
  /\ user w' = Some (Session.with_coins (Some (balance u - COST)) u)
  /\ (if isGuest u
      then guestProfile w' = user w' /\ remote w' = remote w
      else guestProfile w' = guestProfile w
           /\ exists d, remote w !! uid u = Some d
                        /\ remote w' = <[uid u := mkUserDoc (doc_displayName d) (doc_email d)
                                                     (doc_photoURL d) (doc_lastLogin d)
                                                     (Some (default 0 (doc_coins d) - COST))
                                                     (doc_isPremium d)]> (remote w)).

(** After a reload the signed-out resolution brings back the profile that
    was in memory. *)
Definition restored_by_reload (w : World) : Prop :=
  user (snd (Session.onAuthStateChanged None (reload w))) = user w.

(** The message of the [catch] branch of the image panel. *)
Definition image_catch_message : string :=
  "An error occurred while generating the images. Please try again.".

(** The [catch] branch of the video panel, on the error message [e]. *)
Definition video_catch (e : string) (p : VideoGenerator.Panel) : VideoGenerator.Panel :=
  if includes e "Requested entity was not found" then
    VideoGenerator.setError "API Key error. Please re-select your API key and try again."
      (VideoGenerator.setHasApiKey false p)
  else VideoGenerator.setError "An error occurred during generation." p.

(** The video panel when the [try] block is entered. *)
Definition video_started (p : VideoGenerator.Panel) : VideoGenerator.Panel :=
  VideoGenerator.setLoadingMessage "Warming up the digital director's chair..."
    (VideoGenerator.setError EmptyString
       (VideoGenerator.setAudioUrl None
          (VideoGenerator.setVideoUrl None (VideoGenerator.setLoading true p)))).

(** The video panel with the generated media. *)
Definition video_shown (gv : string) (ga : option string) (p : VideoGenerator.Panel)
  : VideoGenerator.Panel :=
  match ga with
  | Some a => VideoGenerator.setAudioUrl (Some a) (VideoGenerator.setVideoUrl (Some gv) p)
  | None => VideoGenerator.setVideoUrl (Some gv) p
  end.

(** The form of the image panel: what the visitor typed and chose. *)
Definition image_form (p : ImageGenerator.Panel) : string * string * string * Z :=
  (ImageGenerator.prompt p, ImageGenerator.aspectRatio p, ImageGenerator.legacy p,
   ImageGenerator.numberOfImages p).

(** The form of the video panel. *)
Definition video_form (p : VideoGenerator.Panel)
  : VideoGenerator.GenerationMode * string * option VideoGenerator.File * string * string * Z
    * VideoGenerator.AudioMode * option VideoGenerator.File * string * string :=
  (VideoGenerator.mode p, VideoGenerator.prompt p, VideoGenerator.image p,
   VideoGenerator.aspectRatio p, VideoGenerator.legacy p, VideoGenerator.duration p,
   VideoGenerator.audioMode p, VideoGenerator.audioFile p, VideoGenerator.ttsPrompt p,
   VideoGenerator.ttsVoice p).

(** ** Further sample states *)

Module Sample2.

(** A member with 40 coins whose next remote call is refused. *)
Definition member_offline : World :=
  mkWorld {[ "ada" := Sample.doc 40 ]} None (Some (Sample.member 40)) [false] 1700 [].


End Sample2.

(** ** Vocabulary for the gateway client *)

(** The progress values reported so far, oldest first. *)
Fixpoint progressed (t : list GeminiService.FrameEvent) : list Q :=
  match t with
  | [] => []
  | GeminiService.Progress p :: rest => p :: progressed rest
  | _ :: rest => progressed rest
  end.

(** The progress reported after frame [i] of [N]. *)
Definition frame_progress (N i : nat) : Q :=
  ((inject_Z (Z.of_nat (i + 1)) / inject_Z (Z.of_nat N)) * 50)%Q.

(** A server on which no operation ever finishes. *)
Definition never_done (getVideosOperation : nat -> Gateway.Operation -> Reply Gateway.Operation)
  : Prop :=
  forall k operation, exists operation',
    getVideosOperation k operation = Fulfilled operation' /\ Gateway.done operation' = false.

Module Sample3.

(** A chunk whose web entry has no link, though its maps entry has one. *)
Definition half_chunk : Gateway.Chunk :=
  Gateway.mkChunk (Some (Gateway.mkPlace None (Some "Cafe")))
    (Some (Gateway.mkPlace (Some "https://maps.example/cafe") (Some "Cafe"))).

Definition web_chunk : Gateway.Chunk :=
  Gateway.mkChunk (Some (Gateway.mkPlace (Some "https://example.org") None)) None.

Definition search_answer (_ : Gateway.SearchRequest) : Reply Gateway.SearchResponse :=
  Fulfilled (Gateway.mkSearchResponse "An answer."
               (Some [Gateway.mkCandidate (Some (Some [half_chunk; web_chunk]))])).

(** A server that finishes an operation at the third poll. *)
Definition third_poll (k : nat) (_ : Gateway.Operation) : Reply Gateway.Operation :=
  Fulfilled (Gateway.mkOperation (2 <=? k)%nat (Some "https://videos.example/v1?alt=media")).

Definition pending : Gateway.Operation := Gateway.mkOperation false None.

End Sample3.

Module Sample4.

(** The sample clip, except that the frame at 5 s does not encode. *)
Definition tainted : GeminiService.Video :=
  GeminiService.mkVideo true (JS.finite 10) (fun _ => true)
    (fun t => if Qeq_bool t 5 then None else GeminiService.toBlob Sample.clip t).

(** The sample clip, except that the seek to 5 s fails. *)
Definition stuck : GeminiService.Video :=
  GeminiService.mkVideo true (JS.finite 10) (fun t => negb (Qeq_bool t 5))
    (GeminiService.toBlob Sample.clip).

End Sample4.

Module Sample5.

Definition describe (_ : Gateway.AnalysisRequest) : Reply string := Fulfilled "A short clip.".

Definition idle : Gateway.Analysis := (Sample.browser, []).

End Sample5.

(** * Proofs *)

(** ** The monad *)

Lemma bind_returned {S A B} (m : Eff.t S A) (k : A -> Eff.t S B) s a s' :
  m s = (Returned a, s') -> Eff.bind m k s = k a s'.
Proof. intros H. unfold Eff.bind. now rewrite H. Qed.

Lemma bind_threw {S A B} (m : Eff.t S A) (k : A -> Eff.t S B) s e s' :
  m s = (Threw e, s') -> Eff.bind m k s = (Threw e, s').
Proof. intros H. unfold Eff.bind. now rewrite H. Qed.

Lemma bind_ret {S A B} (a : A) (k : A -> Eff.t S B) s : Eff.bind (Eff.ret a) k s = k a s.
Proof. reflexivity. Qed.

Lemma bind_get {S B} (k : S -> Eff.t S B) s : Eff.bind Eff.get k s = k s s.
Proof. reflexivity. Qed.

Lemma bind_modify {S B} (f : S -> S) (k : unit -> Eff.t S B) s :
  Eff.bind (Eff.modify f) k s = k tt (f s).
Proof. reflexivity. Qed.

Lemma bind_throw {S A B} e (k : A -> Eff.t S B) s :
  Eff.bind (Eff.throw e) k s = (Threw e, s).
Proof. reflexivity. Qed.

Lemma bind_bind {S A B C} (m : Eff.t S A) (k : A -> Eff.t S B) (k' : B -> Eff.t S C) s :
  Eff.bind (Eff.bind m k) k' s = Eff.bind m (fun a => Eff.bind (k a) k') s.
Proof. unfold Eff.bind. destruct (m s) as [[a|e] s']; reflexivity. Qed.

Ltac eff_simpl :=
  repeat (rewrite ?bind_bind, ?bind_get, ?bind_modify, ?bind_ret, ?bind_throw; cbv beta).

Lemma world_eta (w : World) :
  mkWorld (remote w) (guestProfile w) (user w) (net w) (clock w) (events w) = w.
Proof. now destruct w. Qed.

(** ** Firestore over a reliable network *)

Lemma reliable_tail w : reliable w -> reliable (set_net (tl (net w)) w).
Proof.
  unfold reliable. cbn. intros H. destruct (net w) as [|b l]; cbn; [constructor|].
  now inversion H.
Qed.

Lemma request_reliable w :
  reliable w -> Firestore.request w = (Returned tt, set_net (tl (net w)) w).
Proof.
  unfold reliable, Firestore.request. destruct w as [r g u n c ev]; cbn.
  intros H. destruct n as [|b l]; [reflexivity|].
  inversion H; subst. reflexivity.
Qed.

Lemma getDoc_reliable id w :
  reliable w ->
  Firestore.getDoc id w
  = (Returned (remote w !! id), emit (RemoteRead id) (set_net (tl (net w)) w)).
Proof.
  intros H. unfold Firestore.getDoc.
  rewrite (bind_returned _ _ _ _ _ (request_reliable w H)). reflexivity.
Qed.


Lemma updateDoc_reliable id u w d :
  reliable w -> remote w !! id = Some d ->
  Firestore.updateDoc id u w
  = (Returned tt,
     emit (RemoteWrite id)
       (set_remote (insert id (Firestore.apply_updates u d)) (set_net (tl (net w)) w))).
Proof.
  intros H Hd. unfold Firestore.updateDoc.
  rewrite (bind_returned _ _ _ _ _ (request_reliable w H)). cbn. now rewrite Hd.
Qed.

(** ** Invariants of a computation *)

Lemma keeps_ret {S A} (I : S -> Prop) (a : A) : keeps I (Eff.ret a).
Proof. intros s H. exact H. Qed.

Lemma keeps_throw {S A} (I : S -> Prop) e : keeps I (@Eff.throw S A e).
Proof. intros s H. exact H. Qed.

Lemma keeps_get {S} (I : S -> Prop) : keeps I Eff.get.
Proof. intros s H. exact H. Qed.

Lemma keeps_modify {S} (I : S -> Prop) (f : S -> S) :
  (forall s, I s -> I (f s)) -> keeps I (Eff.modify f).
Proof. intros Hf s H. apply Hf, H. Qed.

Lemma keeps_bind {S A B} (I : S -> Prop) (m : Eff.t S A) (k : A -> Eff.t S B) :
  keeps I m -> (forall a, keeps I (k a)) -> keeps I (Eff.bind m k).
Proof.
  intros Hm Hk s H. unfold Eff.bind. specialize (Hm s H).
  destruct (m s) as [[a|e] s1]; cbn in *; [apply Hk, Hm | exact Hm].
Qed.

Lemma keeps_try_catch {S A} (I : S -> Prop) (m : Eff.t S A) (h : string -> Eff.t S A) :
  keeps I m -> (forall e, keeps I (h e)) -> keeps I (Eff.try_catch m h).
Proof.
  intros Hm Hh s H. unfold Eff.try_catch. specialize (Hm s H).
  destruct (m s) as [[a|e] s1]; cbn in *; [exact Hm | apply Hh, Hm].
Qed.

Lemma keeps_try_finally {S A} (I : S -> Prop) (m : Eff.t S A) (c : Eff.t S unit) :
  keeps I m -> keeps I c -> keeps I (Eff.try_finally m c).
Proof.
  intros Hm Hc s H. unfold Eff.try_finally. specialize (Hm s H).
  destruct (m s) as [r s1]; cbn in *. specialize (Hc s1 Hm).
  destruct (c s1) as [[a|e] s2]; exact Hc.
Qed.

Lemma bind_threw_inv {S A B} (m : Eff.t S A) (k : A -> Eff.t S B) s e s' :
  Eff.bind m k s = (Threw e, s') ->
  m s = (Threw e, s') \/ exists a s1, m s = (Returned a, s1) /\ k a s1 = (Threw e, s').
Proof.
  unfold Eff.bind. destruct (m s) as [[a|e0] s1]; intros H.
  - right. eauto.
  - left. now inversion H.
Qed.

(** The profile in memory and the guest slot are out of reach of the
    remote calls. *)
Lemma keeps_local_request u g : keeps (local_frame u g) Firestore.request.
Proof.
  intros w H. unfold Firestore.request. destruct (net w) as [|[] l]; exact H.
Qed.



Lemma keeps_local_updateDoc u g id up : keeps (local_frame u g) (Firestore.updateDoc id up).
Proof.
  unfold Firestore.updateDoc.
  apply keeps_bind; [apply keeps_local_request | intros _].
  apply keeps_bind; [apply keeps_get | intros w0].
  destruct (remote w0 !! id); [|apply keeps_throw].
  apply keeps_modify. intros w H. exact H.
Qed.


(** ** Session resolution *)

Section Resolution.

Import Session Firestore.

Variable cu : AuthUser.

(** What the run leaves when the document is already there. *)
Lemma resolve_existing w d :
  reliable w -> remote w !! au_uid cu = Some d ->
  let d' := apply_updates
              {| up_lastLogin := Some (clock w);
                 up_coins := match doc_coins d with None => Some (literal 100) | Some _ => None end;
                 up_isPremium := match doc_isPremium d with None => Some false | Some _ => None end |} d in
  onAuthStateChanged (Some cu) w
  = (Returned tt,
     mkWorld (<[au_uid cu := d']> (remote w)) None
       (Some (mkUserProfile (au_uid cu) (au_displayName cu) (au_email cu) (au_photoURL cu)
                (doc_coins d') false (doc_isPremium d')))
       (tl (tl (tl (net w)))) (clock w)
       (events w ++ [RemoteRead (au_uid cu); RemoteWrite (au_uid cu); RemoteRead (au_uid cu)])).
Proof.
  intros Hn Hd. cbn zeta. unfold onAuthStateChanged, localStorage_removeItem, Date_now.
  rewrite bind_modify.
  set (w1 := set_guestProfile None w).
  assert (Hn1 : reliable w1) by exact Hn.
  rewrite (bind_returned _ _ _ _ _ (getDoc_reliable (au_uid cu) w1 Hn1)).
  change (remote w1 !! au_uid cu) with (remote w !! au_uid cu). rewrite Hd.
  set (w2 := emit _ _).
  assert (Hn2 : reliable w2) by (apply (reliable_tail w1 Hn1)).
  eff_simpl.
  rewrite (bind_returned _ _ _ _ _ (updateDoc_reliable _ _ w2 d Hn2 Hd)).
  set (w3 := emit _ _).
  assert (Hn3 : reliable w3) by (apply (reliable_tail w2 Hn2)).
  rewrite (bind_returned _ _ _ _ _ (getDoc_reliable _ w3 Hn3)).
  unfold setUser, Eff.modify. subst w3 w2 w1.
  unfold set_user, emit, set_remote, set_net, set_guestProfile.
  cbn -[insert lookup apply_updates].
  rewrite lookup_insert_eq. cbn -[insert lookup apply_updates].
  rewrite <- !app_assoc. reflexivity.
Qed.


End Resolution.

(** ** Claims on session resolution *)

(** C4.  An existing remote profile document that lacks [coins] or
    [isPremium] is repaired by the next session resolution: the missing
    field gets its default (100 coins, not premium) while a field that is
    there keeps its value, the repaired document is written to the store
    before it is read back for use, and the profile put in memory carries
    the values of the stored document. *)
Theorem backfill_on_resolution (cu : AuthUser) (w : World) (d : UserDoc) :
  reliable w ->
  remote w !! au_uid cu = Some d ->
  exists (w' : World) (d' : UserDoc) (u : UserProfile),
    Session.onAuthStateChanged (Some cu) w = (Returned tt, w')
    /\ remote w' !! au_uid cu = Some d'
    /\ doc_coins d' = Some (default 100 (doc_coins d))
    /\ doc_isPremium d' = Some (default false (doc_isPremium d))
    /\ user w' = Some u
    /\ coins u = doc_coins d'
    /\ isPremium u = doc_isPremium d'
    /\ events w' = events w ++ [RemoteRead (au_uid cu); RemoteWrite (au_uid cu);
                                RemoteRead (au_uid cu)].
Proof.
  intros Hn Hd.
  pose proof (resolve_existing cu w d Hn Hd) as R. cbn zeta in R.
  eexists _, _, _. split; [exact R|]. cbn [remote user events].
  split; [apply lookup_insert_eq|].
  repeat split; cbn; destruct (doc_coins d), (doc_isPremium d); reflexivity.
Qed.

Lemma backfill_on_resolution_witness :
  reliable (Sample.with_doc Sample.old_doc None)
  /\ remote (Sample.with_doc Sample.old_doc None) !! au_uid Sample.ada = Some Sample.old_doc
  /\ exists (w' : World) (d' : UserDoc) (u : UserProfile),
       Session.onAuthStateChanged (Some Sample.ada) (Sample.with_doc Sample.old_doc None)
       = (Returned tt, w')
       /\ remote w' !! au_uid Sample.ada = Some d'
       /\ doc_coins d' = Some 100
       /\ doc_isPremium d' = Some false
       /\ user w' = Some u
       /\ coins u = doc_coins d'
       /\ isPremium u = doc_isPremium d'
       /\ events w' = [RemoteRead "ada"; RemoteWrite "ada"; RemoteRead "ada"].
Proof.
  split; [constructor|]. split; [reflexivity|].
  apply (backfill_on_resolution Sample.ada (Sample.with_doc Sample.old_doc None) Sample.old_doc).
  - constructor.
  - reflexivity.
Defined.






(** ** Unlocking premium *)

Section Premium.

Import Session Firestore PremiumPage.

Lemma handlePremiumUnlocked_guest u w :
  isGuest u = true ->
  handlePremiumUnlocked (Some u) w
  = (Returned tt,
     let u' := mkUserProfile (uid u) (displayName u) (email u) (photoURL u)
                 (coins u) true (Some true) in
     mkWorld (remote w) (Some u') (Some u') (net w) (clock w) (events w)).
Proof.
  intros Hg. unfold handlePremiumUnlocked. rewrite Hg. reflexivity.
Qed.

Lemma handlePremiumUnlocked_member u w :
  isGuest u = false ->
  let u' := mkUserProfile (uid u) (displayName u) (email u) (photoURL u)
              None false (Some true) in
  handlePremiumUnlocked (Some u) w
  = updateDoc (uid u) {| up_lastLogin := None; up_coins := None; up_isPremium := Some true |}
      (set_user (Some u') w).
Proof.
  intros Hg. unfold handlePremiumUnlocked. rewrite Hg. reflexivity.
Qed.

(** What [updateDoc] may do to the collection. *)
Lemma updateDoc_remote id up w :
  remote (snd (updateDoc id up w)) = remote w
  \/ exists d, remote w !! id = Some d
               /\ remote (snd (updateDoc id up w)) = <[id := apply_updates up d]> (remote w).
Proof.
  unfold updateDoc, request, Eff.bind.
  destruct (net w) as [|[] l]; cbn -[insert lookup]; auto;
    destruct (remote w !! id) as [d|] eqn:E; cbn -[insert lookup]; eauto.
Qed.

(** The page, walked through from its mounted state. *)
Lemma unlockPremium_premium plan u w :
  user w = Some u -> isPremium u = Some true ->
  unlockPremium plan w = (Returned tt, w).
Proof.
  intros Hu Hp. unfold unlockPremium, handleChoosePlan. rewrite Hu, Hp. reflexivity.
Qed.

Lemma unlockPremium_not_premium plan u w :
  user w = Some u -> default false (isPremium u) = false ->
  unlockPremium plan w = handlePremiumUnlocked (Some u) w.
Proof.
  intros Hu Hp. unfold unlockPremium, handleChoosePlan, confirmButton, handleConfirmPayment.
  rewrite Hu, Hp. unfold mounted, setPanel, inApp.
  cbn -[handlePremiumUnlocked].
  destruct (handlePremiumUnlocked (Some u) w) as [r w']. reflexivity.
Qed.

Lemma handlePremiumUnlocked_sets_flag u w :
  exists u', user (snd (handlePremiumUnlocked (Some u) w)) = Some u'
             /\ isPremium u' = Some true.
Proof.
  destruct (isGuest u) eqn:Hg.
  - rewrite (handlePremiumUnlocked_guest u w Hg). cbn. eauto.
  - rewrite (handlePremiumUnlocked_member u w Hg). cbn zeta.
    match goal with |- context [updateDoc ?i ?p ?w0] =>
      pose proof (keeps_local_updateDoc (user w0) (guestProfile w0) i p w0) as K end.
    destruct K as [K _]; [split; reflexivity|]. rewrite K. cbn. eauto.
Qed.

(** Even past the guard of the page, a second run of the handler on the
    profile it produced changes neither that profile nor the guest slot. *)
Lemma handlePremiumUnlocked_again u w :
  let w1 := snd (handlePremiumUnlocked (Some u) w) in
  let w2 := snd (handlePremiumUnlocked (user w1) w1) in
  user w2 = user w1 /\ guestProfile w2 = guestProfile w1.
Proof.
  cbn zeta. destruct (isGuest u) eqn:Hg.
  - rewrite (handlePremiumUnlocked_guest u w Hg). cbn [snd user].
    rewrite handlePremiumUnlocked_guest by reflexivity. cbn. split; reflexivity.
  - rewrite (handlePremiumUnlocked_member u w Hg). cbn zeta.
    set (u' := mkUserProfile _ _ _ _ None false (Some true)).
    set (up := mkUpdates None None (Some true)).
    destruct (keeps_local_updateDoc (Some u') (guestProfile w) (uid u) up
                (set_user (Some u') w)) as [K1 K2]; [split; reflexivity|].
    set (w1 := snd (updateDoc (uid u) up (set_user (Some u') w))) in *.
    rewrite K1. rewrite (handlePremiumUnlocked_member u' w1 eq_refl). cbn zeta.
    destruct (keeps_local_updateDoc (Some u') (guestProfile w1) (uid u') up
                (set_user (Some u') w1)) as [K3 K4]; [split; reflexivity|].
    split; [exact K3 | exact K4].
Qed.

End Premium.

(** C8.  Going through the premium page twice leaves the profile premium
    and the second pass changes nothing at all, not even the event log or
    the network oracle; for a guest the flag is set in memory and in local
    storage only, with the coin balance kept and the remote collection
    untouched; a pass by a profile that is already premium is a no-op. *)
Theorem unlockPremium_idempotent (plan plan' : PremiumPage.Plan) (u : UserProfile) (w : World) :
  user w = Some u ->
  let w1 := snd (PremiumPage.unlockPremium plan w) in
  (exists u1, user w1 = Some u1 /\ isPremium u1 = Some true)
  /\ PremiumPage.unlockPremium plan' w1 = (Returned tt, w1)
  /\ (isGuest u = true -> default false (isPremium u) = false ->
        exists u1, user w1 = Some u1 /\ guestProfile w1 = Some u1
                   /\ coins u1 = coins u /\ isGuest u1 = true
                   /\ remote w1 = remote w /\ events w1 = events w)
  /\ (isPremium u = Some true -> PremiumPage.unlockPremium plan w = (Returned tt, w)).
Proof.
  intros Hu. cbn zeta.
  assert (P1 : exists u1, user (snd (PremiumPage.unlockPremium plan w)) = Some u1
                          /\ isPremium u1 = Some true).
  { destruct (isPremium u) as [[|]|] eqn:Hp.
    - rewrite (unlockPremium_premium plan u w Hu Hp). eauto.
    - rewrite (unlockPremium_not_premium plan u w Hu) by now rewrite Hp.
      apply handlePremiumUnlocked_sets_flag.
    - rewrite (unlockPremium_not_premium plan u w Hu) by now rewrite Hp.
      apply handlePremiumUnlocked_sets_flag. }
  split; [exact P1|]. split; [|split].
  - destruct P1 as (u1 & H1 & H2). apply (unlockPremium_premium plan' u1 _ H1 H2).
  - intros Hg Hp. rewrite (unlockPremium_not_premium plan u w Hu Hp).
    rewrite (handlePremiumUnlocked_guest u w Hg). cbn. eexists. repeat split.
  - intros Hp. apply (unlockPremium_premium plan u w Hu Hp).
Qed.

Lemma unlockPremium_idempotent_witness :
  user Sample.as_guest = Some Sample.guest
  /\ let w1 := snd (PremiumPage.unlockPremium Sample.monthly Sample.as_guest) in
     (exists u1, user w1 = Some u1 /\ isPremium u1 = Some true)
     /\ PremiumPage.unlockPremium Sample.monthly w1 = (Returned tt, w1)
     /\ (isGuest Sample.guest = true -> default false (isPremium Sample.guest) = false ->
           exists u1, user w1 = Some u1 /\ guestProfile w1 = Some u1
                      /\ coins u1 = coins Sample.guest /\ isGuest u1 = true
                      /\ remote w1 = remote Sample.as_guest /\ events w1 = events Sample.as_guest)
     /\ (isPremium Sample.guest = Some true ->
           PremiumPage.unlockPremium Sample.monthly Sample.as_guest = (Returned tt, Sample.as_guest)).
Proof.
  split; [reflexivity|].
  apply (unlockPremium_idempotent Sample.monthly Sample.monthly Sample.guest Sample.as_guest).
  reflexivity.
Defined.

(** C10.  When premium is unlocked for an authenticated profile, the
    profile in memory loses its [coins] field while the remote write names
    [isPremium] only, so every document keeps its coins and all its other
    fields; for a guest the [coins] field is kept and nothing is written to
    the remote store. *)
Theorem premium_unlock_frame (u : UserProfile) (w : World) :
  let w' := snd (Session.handlePremiumUnlocked (Some u) w) in
  (isGuest u = false ->
     (exists u', user w' = Some u' /\ coins u' = None /\ isPremium u' = Some true)
     /\ (forall id, doc_coins <$> (remote w' !! id) = doc_coins <$> (remote w !! id))
     /\ (forall id d', remote w' !! id = Some d' ->
           exists d, remote w !! id = Some d /\ agree_off_isPremium d d')
     /\ (forall d, reliable w -> remote w !! uid u = Some d ->
           exists d', remote w' !! uid u = Some d' /\ doc_isPremium d' = Some true
                      /\ doc_coins d' = doc_coins d))
  /\ (isGuest u = true ->
        (exists u', user w' = Some u' /\ coins u' = coins u /\ isPremium u' = Some true)
        /\ remote w' = remote w).
Proof.
  cbn zeta. split; intros Hg.
  - rewrite (handlePremiumUnlocked_member u w Hg). cbn zeta.
    set (u' := mkUserProfile _ _ _ _ None false (Some true)).
    set (up := Firestore.mkUpdates None None (Some true)).
    set (w0 := set_user (Some u') w).
    split; [|split; [|split]].
    + destruct (keeps_local_updateDoc (Some u') (guestProfile w) (uid u) up w0) as [K _];
        [split; reflexivity|].
      exists u'. rewrite K. repeat split.
    + intros id.
      destruct (updateDoc_remote (uid u) up w0) as [E | (d & Hd & E)]; rewrite E; [reflexivity|].
      change (remote w0) with (remote w) in *.
      destruct (decide (uid u = id)) as [<-|Hne].
      * rewrite lookup_insert_eq, Hd. reflexivity.
      * now rewrite lookup_insert_ne.
    + intros id d' H.
      destruct (updateDoc_remote (uid u) up w0) as [E | (d & Hd & E)]; rewrite E in H.
      * exists d'. split; [exact H|]. repeat split.
      * change (remote w0) with (remote w) in *.
        destruct (decide (uid u = id)) as [<-|Hne].
        -- rewrite lookup_insert_eq in H. inversion H; subst d'. exists d.
           split; [exact Hd|]. repeat split.
        -- rewrite lookup_insert_ne in H by exact Hne. exists d'.
           split; [exact H|]. repeat split.
    + intros d Hn Hd.
      rewrite (updateDoc_reliable (uid u) up w0 d Hn Hd). cbn -[insert lookup].
      rewrite lookup_insert_eq. eexists. repeat split.
  - rewrite (handlePremiumUnlocked_guest u w Hg). cbn. split; [|reflexivity].
    eexists. repeat split.
Qed.

Lemma premium_unlock_frame_witness :
  isGuest (Sample.member 40) = false
  /\ isGuest Sample.guest = true
  /\ (let w' := snd (Session.handlePremiumUnlocked (Some (Sample.member 40))
                      (Sample.with_doc (Sample.doc 40) (Some (Sample.member 40)))) in
      exists u', user w' = Some u' /\ coins u' = None /\ isPremium u' = Some true)
  /\ (let w' := snd (Session.handlePremiumUnlocked (Some Sample.guest) Sample.as_guest) in
      (exists u', user w' = Some u' /\ coins u' = coins Sample.guest /\ isPremium u' = Some true)
      /\ remote w' = remote Sample.as_guest).
Proof.
  split; [reflexivity|]. split; [reflexivity|]. split.
  - apply (premium_unlock_frame (Sample.member 40)
             (Sample.with_doc (Sample.doc 40) (Some (Sample.member 40)))).
    reflexivity.
  - apply (premium_unlock_frame Sample.guest Sample.as_guest). reflexivity.
Defined.

(** ** The coin gate and the debit *)

Section Debit.

Import Session Firestore Entitlement.

Lemma updateDoc_cases id up w :
  (exists e w1, updateDoc id up w = (Threw e, w1)
                /\ remote w1 = remote w /\ user w1 = user w
                /\ guestProfile w1 = guestProfile w /\ events w1 = events w)
  \/ (exists w1 d, updateDoc id up w = (Returned tt, w1)
                   /\ remote w !! id = Some d
                   /\ remote w1 = <[id := apply_updates up d]> (remote w)
                   /\ user w1 = user w /\ guestProfile w1 = guestProfile w
                   /\ events w1 = events w ++ [RemoteWrite id]).
Proof.
  unfold updateDoc, request, Eff.bind.
  destruct (net w) as [|[] l]; cbn -[insert lookup];
    try (destruct (remote w !! id) as [d|] eqn:E; cbn -[insert lookup]);
    try (left; eexists _, _; repeat split; reflexivity);
    right; eexists _, d; repeat split; reflexivity.
Qed.

Lemma debit_premium COST u w :
  isPremiumOf (Some u) = true -> debit COST u w = (Returned tt, w).
Proof. intros H. unfold debit. now rewrite H. Qed.

Lemma debit_guest COST u w :
  isPremiumOf (Some u) = false -> isGuest u = true ->
  debit COST u w
  = (Returned tt,
     let u' := with_coins (Some (balance u - COST)) u in
     mkWorld (remote w) (Some u') (Some u') (net w) (clock w)
       (events w ++ [CoinsSet (balance u - COST)])).
Proof.
  intros Hp Hg. unfold debit, handleCoinsUpdate. rewrite Hp, Hg. reflexivity.
Qed.


(** A debit that fails has written nothing, neither remotely nor in
    memory. *)
Lemma debit_threw COST u w e w' :
  debit COST u w = (Threw e, w') -> balances_unchanged w w' /\ events w' = events w.
Proof.
  unfold debit, handleCoinsUpdate.
  destruct (isPremiumOf (Some u)); [discriminate|].
  destruct (isGuest u); [discriminate|].
  intros H. apply bind_threw_inv in H as [H | (a & w1 & _ & H)]; [|discriminate].
  destruct (updateDoc_cases (uid u) (mkUpdates None (Some (increment (- COST))) None) w)
    as [(e0 & w1 & E & H1 & H2 & H3 & H4) | (w1 & d & E & _)];
    rewrite E in H; inversion H; subst. repeat split; assumption.
Qed.

(** The events of a debit: nothing, or the write in memory, preceded for
    a member by the remote write. *)
Lemma debit_events COST u w :
  exists added,
    events (snd (debit COST u w)) = events w ++ added
    /\ (added = [] \/ added = [CoinsSet (balance u - COST)]
        \/ added = [RemoteWrite (uid u); CoinsSet (balance u - COST)]).
Proof.
  unfold debit, handleCoinsUpdate.
  destruct (isPremiumOf (Some u)); [exists []; rewrite app_nil_r; auto|].
  destruct (isGuest u).
  - eexists. split; [reflexivity|auto].
  - destruct (updateDoc_cases (uid u) (mkUpdates None (Some (increment (- COST))) None) w)
      as [(e0 & w1 & E & H1 & H2 & H3 & H4) | (w1 & d & E & _ & _ & _ & _ & H4)].
    + rewrite (bind_threw _ _ _ _ _ E). exists []. rewrite app_nil_r. auto.
    + rewrite (bind_returned _ _ _ _ _ E). cbn. rewrite H4, <- app_assoc.
      eexists. split; [reflexivity|auto].
Qed.

(** The gate, for any price. *)
Lemma gate_spec COST u :
  hasEnoughCoins COST (Some u) = isPremiumOf (Some u) || (COST <=? balance u).
Proof. reflexivity. Qed.

End Debit.

(** ** The two paid panels, as functions of the application state *)

Section Panels.

Import Entitlement.

Lemma image_world generateImage u w p :
  world_after (ImageGenerator.handleSubmit generateImage (Some u) (w, p))
  = if trim_is_empty (ImageGenerator.prompt p) || ImageGenerator.loading p then w
    else if negb (hasEnoughCoins ImageGenerator.IMAGE_COST (Some u)) then w
    else
      let w1 := emit (GenerationCall "generateImage") w in
      match generateImage (ImageGenerator.finalPrompt p) (ImageGenerator.aspectRatio p)
              (ImageGenerator.numberOfImages p) with
      | Fulfilled _ =>
          snd (debit ImageGenerator.IMAGE_COST u (emit (GenerationDone "generateImage") w1))
      | Rejected _ => w1
      end.
Proof.
  unfold ImageGenerator.handleSubmit, world_after. rewrite bind_get. cbn [snd].
  destruct (trim_is_empty (ImageGenerator.prompt p) || ImageGenerator.loading p); [reflexivity|].
  destruct (negb (hasEnoughCoins ImageGenerator.IMAGE_COST (Some u))); [reflexivity|].
  unfold setPanel. rewrite !bind_modify.
  unfold Eff.try_finally, Eff.try_catch, inApp, await, Eff.bind, Eff.modify, Eff.ret, Eff.throw.
  cbn [fst snd].
  destruct (generateImage _ _ _) as [urls|e]; cbn [fst snd]; [|reflexivity].
  destruct (debit _ _ _) as [[[]|e] w']; reflexivity.
Qed.

Lemma video_world generateVideo generateSpeech createObjectURL u w p :
  world_after (VideoGenerator.handleSubmit generateVideo generateSpeech createObjectURL
                 (Some u) (w, p))
  = if VideoGenerator.isGenerateDisabled p (Some u) then w
    else
      let w1 := emit (GenerationCall "generateVideo") w in
      let w2 := if VideoGenerator.speaks p then emit (GenerationCall "generateSpeech") w1
                else w1 in
      match generateVideo (VideoGenerator.finalPrompt p) (VideoGenerator.aspectRatio p)
              (VideoGenerator.image p) (VideoGenerator.duration p),
            VideoGenerator.audioReply generateSpeech createObjectURL p with
      | Fulfilled _, Fulfilled _ =>
          snd (debit VideoGenerator.VIDEO_COST u (emit (GenerationDone "generateVideo") w2))
      | _, _ => w2
      end.
Proof.
  unfold VideoGenerator.handleSubmit, world_after. rewrite bind_get. cbn [snd].
  destruct (VideoGenerator.isGenerateDisabled p (Some u)) eqn:Hd; [reflexivity|].
  assert (He : hasEnoughCoins VideoGenerator.VIDEO_COST (Some u) = true).
  { unfold VideoGenerator.isGenerateDisabled in Hd.
    destruct (hasEnoughCoins VideoGenerator.VIDEO_COST (Some u)); [reflexivity|].
    rewrite orb_true_r in Hd. discriminate. }
  rewrite He. cbn [negb].
  unfold setPanel. rewrite !bind_modify.
  unfold VideoGenerator.audioPromise, VideoGenerator.await_all,
    Eff.try_finally, Eff.try_catch, inApp, Eff.bind, Eff.modify, Eff.ret, Eff.throw.
  cbn [fst snd].
  destruct (VideoGenerator.speaks p); cbn [fst snd];
    destruct (VideoGenerator.audioReply generateSpeech createObjectURL p) as [[a|]|e2];
    destruct (generateVideo _ _ _ _) as [gv|e1];
    cbn [fst snd];
    try (destruct (debit _ _ _) as [[[]|e] w']; cbn [fst snd]);
    try (destruct (includes _ _); reflexivity); reflexivity.
Qed.

End Panels.

(** ** Claims on the paid panels *)

Section PaidClaims.

Import Entitlement.









End PaidClaims.



(** The run of the specification: a guest starts with 10 coins, pays 5
    twice for images and is turned away the third time before any call. *)
Example guest_spends_ten_coins :
  let submit w := world_after (ImageGenerator.handleSubmit Sample.image_ok (user w)
                                 (w, Sample.image_panel)) in
  let w0 := snd (Session.onAuthStateChanged None Sample.fresh) in
  let w1 := submit w0 in
  let w2 := submit w1 in
  let w3 := submit w2 in
  user w0 ≫= coins = Some 10
  /\ user w1 ≫= coins = Some 5
  /\ user w2 ≫= coins = Some 0
  /\ w3 = w2.
Proof. cbn. repeat split. Qed.

(** ** Pay on success *)

Section PayOnSuccess.

Import Entitlement.

(** The events of a debit, run after a generation call has returned. *)
Lemma debit_settled COST u w :
  exists added,
    events (snd (debit COST u w)) = events w ++ added
    /\ settled_before_debit true added = true.
Proof.
  destruct (debit_events COST u w) as (added & E & [-> | [-> | ->]]);
    eexists; (split; [exact E | reflexivity]).
Qed.

Lemma image_events generateImage u w p :
  let w' := world_after (ImageGenerator.handleSubmit generateImage (Some u) (w, p)) in
  exists added,
    events w' = events w ++ added
    /\ pay_on_success added
    /\ (forall e, generateImage (ImageGenerator.finalPrompt p) (ImageGenerator.aspectRatio p)
                    (ImageGenerator.numberOfImages p) = Rejected e ->
          forallb (fun ev => negb (is_debit ev)) added = true).
Proof.
  cbn zeta. rewrite image_world. cbn zeta.
  destruct (_ || _); [exists []; rewrite app_nil_r; repeat split|].
  destruct (negb _); [exists []; rewrite app_nil_r; repeat split|].
  destruct (generateImage _ _ _) as [urls|e].
  - destruct (debit_settled ImageGenerator.IMAGE_COST u
                (emit (GenerationDone "generateImage") (emit (GenerationCall "generateImage") w)))
      as (added & E & Hs).
    exists ([GenerationCall "generateImage"; GenerationDone "generateImage"] ++ added).
    rewrite E. cbn [events emit]. rewrite <- !app_assoc. split; [reflexivity|].
    split; [|discriminate]. exact Hs.
  - exists [GenerationCall "generateImage"]. repeat split.
Qed.

Lemma video_events generateVideo generateSpeech createObjectURL u w p :
  let w' := world_after (VideoGenerator.handleSubmit generateVideo generateSpeech
                           createObjectURL (Some u) (w, p)) in
  exists added,
    events w' = events w ++ added
    /\ pay_on_success added
    /\ ((exists e, generateVideo (VideoGenerator.finalPrompt p) (VideoGenerator.aspectRatio p)
                     (VideoGenerator.image p) (VideoGenerator.duration p) = Rejected e)
        \/ (exists e, VideoGenerator.audioReply generateSpeech createObjectURL p = Rejected e) ->
        forallb (fun ev => negb (is_debit ev)) added = true).
Proof.
  cbn zeta. rewrite video_world. cbn zeta.
  destruct (VideoGenerator.isGenerateDisabled _ _); [exists []; rewrite app_nil_r; repeat split|].
  set (calls := if VideoGenerator.speaks p
                then [GenerationCall "generateVideo"; GenerationCall "generateSpeech"]
                else [GenerationCall "generateVideo"]).
  set (w2 := if VideoGenerator.speaks p then _ else _).
  assert (E2 : events w2 = events w ++ calls).
  { subst w2 calls. destruct (VideoGenerator.speaks p); cbn;
      rewrite <- ?app_assoc; reflexivity. }
  assert (Hc : pay_on_success calls /\ forallb (fun ev => negb (is_debit ev)) calls = true).
  { subst calls. destruct (VideoGenerator.speaks p); split; reflexivity. }
  destruct (generateVideo _ _ _ _) as [url|e];
    [destruct (VideoGenerator.audioReply _ _ _) as [audio|e']|];
    try (exists calls; split; [exact E2|]; split; [apply Hc | intros _; apply Hc]).
  destruct (debit_settled VideoGenerator.VIDEO_COST u
              (emit (GenerationDone "generateVideo") w2)) as (added & E & Hs).
  exists (calls ++ [GenerationDone "generateVideo"] ++ added).
  rewrite E. cbn [events emit]. rewrite E2, <- !app_assoc. split; [reflexivity|].
  split.
  - unfold pay_on_success. subst calls. destruct (VideoGenerator.speaks p); exact Hs.
  - intros [[e H] | [e H]]; discriminate H.
Qed.

Lemma image_failure_frame generateImage u w p e :
  generateImage (ImageGenerator.finalPrompt p) (ImageGenerator.aspectRatio p)
    (ImageGenerator.numberOfImages p) = Rejected e ->
  balances_unchanged w (world_after (ImageGenerator.handleSubmit generateImage (Some u) (w, p))).
Proof.
  intros H. rewrite image_world, H. cbn zeta.
  destruct (_ || _); [repeat split|]. destruct (negb _); repeat split.
Qed.

Lemma video_failure_frame generateVideo generateSpeech createObjectURL u w p :
  (exists e, generateVideo (VideoGenerator.finalPrompt p) (VideoGenerator.aspectRatio p)
               (VideoGenerator.image p) (VideoGenerator.duration p) = Rejected e)
  \/ (exists e, VideoGenerator.audioReply generateSpeech createObjectURL p = Rejected e) ->
  balances_unchanged w
    (world_after (VideoGenerator.handleSubmit generateVideo generateSpeech createObjectURL
                    (Some u) (w, p))).
Proof.
  intros H. rewrite video_world. cbn zeta.
  destruct (VideoGenerator.isGenerateDisabled _ _); [repeat split|].
  assert (G : balances_unchanged w
                (if VideoGenerator.speaks p
                 then emit (GenerationCall "generateSpeech") (emit (GenerationCall "generateVideo") w)
                 else emit (GenerationCall "generateVideo") w)).
  { destruct (VideoGenerator.speaks p); repeat split. }
  destruct (generateVideo _ _ _ _) as [url|e];
    [destruct (VideoGenerator.audioReply _ _ _) as [audio|e']|]; try exact G.
  destruct H as [[e H] | [e H]]; discriminate H.
Qed.

(** The [catch] branch leaves its message in the panel; whenever a submit
    ends with that message, no balance has changed, also when it was the
    remote decrement and not the generation that failed. *)
Lemma image_catch_frame generateImage u w p :
  let r := ImageGenerator.handleSubmit generateImage (Some u) (w, p) in
  ImageGenerator.error (panel_after r)
  = "An error occurred while generating the images. Please try again." ->
  balances_unchanged w (world_after r).
Proof.
  cbn zeta. unfold ImageGenerator.handleSubmit, world_after, panel_after.
  rewrite bind_get. cbn [snd].
  destruct (trim_is_empty (ImageGenerator.prompt p) || ImageGenerator.loading p);
    [intros _; repeat split|].
  destruct (negb (hasEnoughCoins ImageGenerator.IMAGE_COST (Some u)));
    [intros _; repeat split|].
  unfold setPanel. rewrite !bind_modify.
  unfold Eff.try_finally, Eff.try_catch, inApp, await, Eff.bind, Eff.modify, Eff.ret, Eff.throw.
  cbn [fst snd].
  destruct (generateImage _ _ _) as [urls|e]; cbn [fst snd]; [|intros _; repeat split].
  destruct (debit _ _ _) as [[[]|e] w'] eqn:E; cbn [fst snd].
  - cbn. discriminate.
  - intros _. apply debit_threw in E as [(H1 & H2 & H3) _]. repeat split; assumption.
Qed.

Lemma video_catch_frame generateVideo generateSpeech createObjectURL u w p :
  let r := VideoGenerator.handleSubmit generateVideo generateSpeech createObjectURL
             (Some u) (w, p) in
  VideoGenerator.error (panel_after r) = "An error occurred during generation."
  \/ VideoGenerator.error (panel_after r)
     = "API Key error. Please re-select your API key and try again." ->
  balances_unchanged w (world_after r).
Proof.
  cbn zeta. unfold VideoGenerator.handleSubmit, world_after, panel_after.
  rewrite bind_get. cbn [snd].
  destruct (VideoGenerator.isGenerateDisabled p (Some u)) eqn:Hd; [intros _; repeat split|].
  assert (He : hasEnoughCoins VideoGenerator.VIDEO_COST (Some u) = true).
  { unfold VideoGenerator.isGenerateDisabled in Hd.
    destruct (hasEnoughCoins VideoGenerator.VIDEO_COST (Some u)); [reflexivity|].
    rewrite orb_true_r in Hd. discriminate. }
  rewrite He. cbn [negb].
  unfold setPanel. rewrite !bind_modify.
  unfold VideoGenerator.audioPromise, VideoGenerator.await_all,
    Eff.try_finally, Eff.try_catch, inApp, Eff.bind, Eff.modify, Eff.ret, Eff.throw.
  cbn [fst snd].
  destruct (VideoGenerator.speaks p); cbn [fst snd];
    destruct (VideoGenerator.audioReply generateSpeech createObjectURL p) as [[a|]|e2];
    destruct (generateVideo _ _ _ _) as [gv|e1];
    cbn [fst snd];
    try (destruct (debit _ _ _) as [[[]|e] w'] eqn:E; cbn [fst snd]);
    try (destruct (includes _ _); cbn [fst snd]);
    try (intros _; repeat split; fail);
    try (intros [H|H]; cbn in H; discriminate H);
    intros _; apply debit_threw in E as [(H1 & H2 & H3) _];
    destruct (VideoGenerator.speaks p); repeat split; assumption.
Qed.

End PayOnSuccess.

(** C2.  In both paid panels the balance is written, remotely and in
    memory, only after the generation call has returned: among the events of
    a submit no write precedes the return of the call, and when the call is
    rejected (for video: the video call or the speech call) the submit adds
    no write at all and leaves the balance in memory, the stored guest
    profile and the remote collection unchanged.  The same holds whenever the
    submit ends in its [catch] branch, whatever failed. *)
Theorem debit_only_after_success (user : option UserProfile) (w : World) :
  (forall generateImage p,
     let r := ImageGenerator.handleSubmit generateImage user (w, p) in
     let w' := world_after r in
     (exists added,
        events w' = events w ++ added
        /\ pay_on_success added
        /\ (forall e, generateImage (ImageGenerator.finalPrompt p) (ImageGenerator.aspectRatio p)
                        (ImageGenerator.numberOfImages p) = Rejected e ->
              forallb (fun ev => negb (is_debit ev)) added = true
              /\ balances_unchanged w w'))
     /\ (ImageGenerator.error (panel_after r)
         = "An error occurred while generating the images. Please try again." ->
         balances_unchanged w w'))
  /\ (forall generateVideo generateSpeech createObjectURL p,
        let r := VideoGenerator.handleSubmit generateVideo generateSpeech
                   createObjectURL user (w, p) in
        let w' := world_after r in
        (exists added,
           events w' = events w ++ added
           /\ pay_on_success added
           /\ ((exists e, generateVideo (VideoGenerator.finalPrompt p)
                            (VideoGenerator.aspectRatio p) (VideoGenerator.image p)
                            (VideoGenerator.duration p) = Rejected e)
               \/ (exists e, VideoGenerator.audioReply generateSpeech createObjectURL p
                             = Rejected e) ->
               forallb (fun ev => negb (is_debit ev)) added = true
               /\ balances_unchanged w w'))
        /\ (VideoGenerator.error (panel_after r) = "An error occurred during generation."
            \/ VideoGenerator.error (panel_after r)
               = "API Key error. Please re-select your API key and try again." ->
            balances_unchanged w w')).
Proof.
  destruct user as [u|].
  - split.
    + intros generateImage p. cbn zeta. split; [|apply image_catch_frame].
      destruct (image_events generateImage u w p) as (added & E & Hs & Hf).
      exists added. split; [exact E|]. split; [exact Hs|].
      intros e He. split; [exact (Hf e He) | exact (image_failure_frame _ u w p e He)].
    + intros generateVideo generateSpeech createObjectURL p. cbn zeta.
      split; [|apply video_catch_frame].
      destruct (video_events generateVideo generateSpeech createObjectURL u w p)
        as (added & E & Hs & Hf).
      exists added. split; [exact E|]. split; [exact Hs|].
      intros He. split; [exact (Hf He) | now apply video_failure_frame].
  - split.
    + intros generateImage p. cbn. split; [|intros _; repeat split].
      exists []. rewrite app_nil_r. repeat split.
    + intros generateVideo generateSpeech createObjectURL p. cbn.
      split; [|intros _; repeat split].
      exists []. rewrite app_nil_r. repeat split.
Qed.

Lemma debit_only_after_success_witness :
  Sample.image_down (ImageGenerator.finalPrompt Sample.image_panel)
    (ImageGenerator.aspectRatio Sample.image_panel)
    (ImageGenerator.numberOfImages Sample.image_panel) = Rejected "503"
  /\ exists added,
       events (world_after (ImageGenerator.handleSubmit Sample.image_down
                              (Some (Sample.guest_with 10))
                              (Sample.guest_holding 10, Sample.image_panel)))
       = events (Sample.guest_holding 10) ++ added
       /\ forallb (fun ev => negb (is_debit ev)) added = true
       /\ balances_unchanged (Sample.guest_holding 10)
            (world_after (ImageGenerator.handleSubmit Sample.image_down
                            (Some (Sample.guest_with 10))
                            (Sample.guest_holding 10, Sample.image_panel))).
Proof.
  split; [reflexivity|].
  destruct (proj1 (proj1 (debit_only_after_success (Some (Sample.guest_with 10))
                            (Sample.guest_holding 10)) Sample.image_down Sample.image_panel))
    as (added & E & _ & H).
  exists added. split; [exact E|]. exact (H "503" eq_refl).
Defined.

(** ** Frame extraction *)

Section Frames.

Import JS GeminiService.

Variable element : VideoSource -> Video.

Lemma capture_run v d N todo :
  forall i acc b,
    (forall j, (i <= j < i + todo)%nat -> seeked v (frame_time d N j) = true) ->
    capture v d N todo i acc b
    = (Returned (acc ++ map (fun j => promise_of (toBlob v (frame_time d N j))) (seq i todo)),
       mkBrowser (objectURLs b) (minted b) (trace b ++ flat_map (round d N) (seq i todo))).
Proof.
  induction todo as [|todo IH]; intros i acc b Hs.
  - cbn. rewrite !app_nil_r. now destruct b.
  - cbn [capture]. rewrite bind_modify, (Hs i) by lia. rewrite bind_ret, !bind_modify.
    rewrite IH by (intros j Hj; apply Hs; lia).
    cbn [seq map flat_map objectURLs minted trace log]. f_equal.
    + now rewrite <- app_assoc.
    + f_equal. unfold round. now rewrite <- !app_assoc.
Qed.

Lemma Promise_all_fulfilled {S} (l : list string) (s : S) :
  Promise_all (map Fulfilled l) s = (Returned l, s).
Proof.
  induction l as [|x l IH]; [reflexivity|].
  cbn [map Promise_all]. now rewrite (bind_returned _ _ _ _ _ IH).
Qed.

Lemma drawn_app t1 t2 : drawn (t1 ++ t2) = drawn t1 ++ drawn t2.
Proof.
  induction t1 as [|[] t1 IH]; cbn; now rewrite ?IH.
Qed.

Lemma drawn_rounds d N l : drawn (flat_map (round d N) l) = map (frame_time d N) l.
Proof. induction l as [|i l IH]; cbn; now rewrite ?IH. Qed.

(** The loop and [Promise.all] leave the object URLs alone. *)
Lemma keeps_urls_capture (X : gset nat) v d N todo :
  forall i acc, keeps (fun b => objectURLs b = X) (capture v d N todo i acc).
Proof.
  induction todo as [|todo IH]; intros i acc; cbn [capture].
  - apply keeps_ret.
  - repeat (apply keeps_bind; [|intros ?]); try apply IH;
      try (apply keeps_modify; intros b H; exact H).
    destruct (seeked v _); [apply keeps_ret | apply keeps_throw].
Qed.

Lemma keeps_urls_Promise_all (X : gset nat) ps :
  keeps (fun b : Browser => objectURLs b = X) (Promise_all ps).
Proof.
  induction ps as [|[x|e] ps IH]; cbn [Promise_all].
  - apply keeps_ret.
  - apply keeps_bind; [exact IH | intros ?; apply keeps_ret].
  - apply keeps_throw.
Qed.

(** Every object URL that was live stays live or is the one created here,
    and the one created here is revoked on every exit. *)
Lemma object_urls_after src N b :
  objectURLs (snd (_processVideoToFrames element src N b))
  = match src with
    | SourceFile _ => ({[ minted b ]} ∪ objectURLs b) ∖ {[ minted b ]}
    | SourceURL _ => objectURLs b
    end.
Proof.
  unfold _processVideoToFrames.
  assert (K : forall X, keeps (fun b : Browser => objectURLs b = X)
                          (readFrames (element src) N)).
  { intros X. unfold readFrames.
    apply keeps_bind; [destruct (loadedmetadata _); [apply keeps_ret | apply keeps_throw]|].
    intros _. cbn zeta. destruct (_ || _); [apply keeps_throw|].
    destruct (duration (element src)); try apply keeps_throw.
    apply keeps_bind; [apply keeps_urls_capture | intros ?; apply keeps_urls_Promise_all]. }
  destruct src as [name|url]; cbn [isFile].
  - unfold URL_createObjectURL. unfold Eff.bind at 1. unfold Eff.try_finally.
    set (b1 := mkBrowser _ _ _).
    specialize (K (objectURLs b1) b1 eq_refl).
    destruct (readFrames _ _ b1) as [r b2]. cbn in K |- *. now rewrite K.
  - rewrite bind_ret. unfold Eff.try_finally.
    specialize (K (objectURLs b) b eq_refl).
    destruct (readFrames _ _ b) as [r b2]. cbn in K |- *. exact K.
Qed.

End Frames.

(** *** Arithmetic of the time stamps *)

Section Timestamps.

Import GeminiService.

Variables (d : Q) (N : nat).
Hypothesis d_pos : (0 < d)%Q.
Hypothesis N_pos : (1 <= N)%nat.







End Timestamps.

(** ** Claims on frame extraction *)

Section FrameClaims.

Import JS GeminiService.

Variable element : VideoSource -> Video.

Lemma readFrames_valid v d N b :
  loadedmetadata v = true -> duration v = finite d -> (0 < d)%Q ->
  (forall i, (i < N)%nat -> seeked v (frame_time d N i) = true
                            /\ is_Some (toBlob v (frame_time d N i))) ->
  readFrames v N b
  = (Returned (map (fun i => default EmptyString (toBlob v (frame_time d N i))) (seq 0 N)),
     mkBrowser (objectURLs b) (minted b) (trace b ++ flat_map (round d N) (seq 0 N))).
Proof.
  intros Hl Hd Hpos Hok. unfold readFrames. rewrite Hl, bind_ret, Hd. cbn zeta.
  assert (Hz : le_zero (finite d) = false).
  { cbn. destruct (Qle_bool d 0) eqn:E; [|reflexivity].
    apply Qle_bool_iff in E. exfalso. exact (Qlt_not_le _ _ Hpos E). }
  rewrite Hz. cbn [isFinite negb orb].
  rewrite (bind_returned _ _ _ _ _
             (capture_run v d N N 0 [] b (fun j Hj => proj1 (Hok j (proj2 Hj))))).
  cbn [app].
  replace (map (fun j => promise_of (toBlob v (frame_time d N j))) (seq 0 N))
    with (map Fulfilled (map (fun i => default EmptyString (toBlob v (frame_time d N i))) (seq 0 N))).
  - apply Promise_all_fulfilled.
  - rewrite map_map. apply map_ext_in. intros i Hi. apply in_seq in Hi.
    destruct (Hok i) as [_ [data Hdata]]; [lia|]. now rewrite Hdata.
Qed.

Lemma readFrames_invalid v N b :
  loadedmetadata v = true -> invalid_duration (duration v) ->
  readFrames v N b = (Threw "Video duration is invalid or could not be determined.", b).
Proof.
  intros Hl Hd. unfold readFrames. rewrite Hl, bind_ret. cbn zeta.
  destruct (duration v) as [q| | |]; cbn in *; try reflexivity.
  apply Qle_bool_iff in Hd. now rewrite Hd.
Qed.

Lemma revoked_gone (h : nat) (X : gset nat) : h ∉ ({[ h ]} ∪ X) ∖ {[ h ]}.
Proof.
  rewrite elem_of_difference, elem_of_singleton. intros [_ H]. now apply H.
Qed.

Lemma revoked_subset (h : nat) (X : gset nat) : ({[ h ]} ∪ X) ∖ {[ h ]} ⊆ X.
Proof.
  intros x. rewrite elem_of_difference, elem_of_union, !elem_of_singleton.
  intros [[H|H] Hn]; [contradiction | exact H].
Qed.

(** The exit through [finally]. *)
Lemma process_outcome src N b r b1 :
  readFrames (element src) N (opened src b) = (r, b1) ->
  exists b', _processVideoToFrames element src N b = (r, b') /\ trace b' = trace b1.
Proof.
  unfold _processVideoToFrames, opened.
  destruct src as [name|url]; cbn [fst snd isFile]; intros H.
  - unfold URL_createObjectURL at 1. unfold Eff.bind at 1. unfold Eff.try_finally.
    unfold URL_createObjectURL in H. cbn [snd] in H. rewrite H.
    cbn. eexists. split; reflexivity.
  - rewrite bind_ret. unfold Eff.try_finally. rewrite H. cbn. eexists. split; reflexivity.
Qed.

End FrameClaims.



(** The four frames of the sample clip, at 0 s, 2.5 s, 5 s and 7.5 s. *)
Example clip_in_four_frames :
  fst (GeminiService._processVideoToFrames (fun _ => Sample.clip)
         (GeminiService.SourceFile "clip.mp4") 4 Sample.browser)
  = Returned ["frame0"; "frame10"; "frame20"; "frame30"].
Proof. vm_compute. reflexivity. Qed.

(** C7.  When the metadata reports a duration that is not finite or not
    above zero, the extraction fails with the duration error and nothing is
    sought, drawn or reported; the object URL created for a local file is
    revoked on that exit, and on every other exit of the function too. *)
Theorem invalid_duration_rejected
    (element : GeminiService.VideoSource -> GeminiService.Video)
    (src : GeminiService.VideoSource) (N : nat) (b : GeminiService.Browser) :
  GeminiService.loadedmetadata (element src) = true ->
  invalid_duration (GeminiService.duration (element src)) ->
  exists b',
    GeminiService._processVideoToFrames element src N b
    = (Threw "Video duration is invalid or could not be determined.", b')
    /\ GeminiService.trace b' = GeminiService.trace b
    /\ (GeminiService.isFile src = true ->
          GeminiService.minted b ∉ GeminiService.objectURLs b')
    /\ GeminiService.objectURLs b' ⊆ GeminiService.objectURLs b
    /\ (forall element' name N' b0,
          GeminiService.minted b0
          ∉ GeminiService.objectURLs
              (snd (GeminiService._processVideoToFrames element'
                      (GeminiService.SourceFile name) N' b0))).
Proof.
  intros Hl Hd.
  edestruct (process_outcome element src N b) as (b' & E & Ht).
  { apply (readFrames_invalid (element src) N _ Hl Hd). }
  exists b'. split; [exact E|].
  pose proof (object_urls_after element src N b) as U. rewrite E in U. cbn [snd] in U.
  split; [|split; [|split]].
  - rewrite Ht. now destruct src.
  - intros Hf. rewrite U. destruct src; [apply revoked_gone | discriminate].
  - rewrite U. destruct src; [apply revoked_subset | reflexivity].
  - intros element' name N' b0. rewrite object_urls_after. apply revoked_gone.
Qed.

Lemma invalid_duration_rejected_witness :
  exists b',
    GeminiService._processVideoToFrames (fun _ => Sample.stream)
      (GeminiService.SourceFile "live.webm") 10 Sample.browser
    = (Threw "Video duration is invalid or could not be determined.", b')
    /\ GeminiService.trace b' = GeminiService.trace Sample.browser
    /\ (GeminiService.isFile (GeminiService.SourceFile "live.webm") = true ->
          GeminiService.minted Sample.browser ∉ GeminiService.objectURLs b')
    /\ GeminiService.objectURLs b' ⊆ GeminiService.objectURLs Sample.browser
    /\ (forall element' name N' b0,
          GeminiService.minted b0
          ∉ GeminiService.objectURLs
              (snd (GeminiService._processVideoToFrames element'
                      (GeminiService.SourceFile name) N' b0))).
Proof.
  apply (invalid_duration_rejected (fun _ => Sample.stream)
           (GeminiService.SourceFile "live.webm") 10 Sample.browser).
  - reflexivity.
  - exact I.
Defined.

(** ** PCM capture *)

Section Pcm.

Import JS.

Lemma ToInt16_range x : -32768 <= ToInt16 x < 32768.
Proof.
  destruct x as [q| | |]; cbn; try lia.
  pose proof (Z.mod_pos_bound (truncate q) 65536 eq_refl) as B.
  destruct (32768 <=? truncate q mod 65536) eqn:E;
    [apply Z.leb_le in E | apply Z.leb_gt in E]; lia.
Qed.

Lemma ToInt16_congruent q : (ToInt16 (finite q) - truncate q) mod 65536 = 0.
Proof.
  cbn. destruct (32768 <=? truncate q mod 65536).
  - replace (truncate q mod 65536 - 65536 - truncate q)
      with (- (truncate q - truncate q mod 65536) + (-1) * 65536) by ring.
    rewrite Z.mod_add by discriminate.
    rewrite (Z.div_mod (truncate q) 65536) at 1 by discriminate.
    replace (- (65536 * (truncate q / 65536) + truncate q mod 65536 - truncate q mod 65536))
      with ((- (truncate q / 65536)) * 65536) by ring.
    apply Z.mod_mul. discriminate.
  - rewrite (Z.div_mod (truncate q) 65536) at 2 by discriminate.
    replace (truncate q mod 65536 - (65536 * (truncate q / 65536) + truncate q mod 65536))
      with ((- (truncate q / 65536)) * 65536) by ring.
    apply Z.mod_mul. discriminate.
Qed.

Lemma ToInt16_small q : -32768 <= truncate q < 32768 -> ToInt16 (finite q) = truncate q.
Proof.
  intros H. cbn.
  destruct (Z_lt_le_dec (truncate q) 0) as [Hneg|Hpos].
  - replace (truncate q mod 65536) with (truncate q + 65536).
    + destruct (32768 <=? truncate q + 65536) eqn:E;
        [apply Z.leb_le in E | apply Z.leb_gt in E]; lia.
    + apply (Z.mod_unique_pos _ _ (-1)); lia.
  - rewrite Z.mod_small by lia.
    destruct (32768 <=? truncate q) eqn:E; [apply Z.leb_le in E; lia | reflexivity].
Qed.

Lemma ToInt16_large q :
  truncate q < -32768 \/ 32768 <= truncate q -> ToInt16 (finite q) <> truncate q.
Proof.
  intros H E. pose proof (ToInt16_range (finite q)) as B. rewrite E in B. lia.
Qed.

Lemma truncate_scaled (n : Z) (d : positive) :
  truncate ((n # d) * 32768) = Z.quot (n * 32768) (Zpos d).
Proof. unfold truncate. cbn [Qmult Qnum Qden]. now rewrite Pos.mul_1_r. Qed.

Lemma truncate_integer q k : (q == inject_Z k)%Q -> truncate q = k.
Proof.
  destruct q as [n d]. unfold Qeq, truncate. cbn [Qnum Qden inject_Z].
  rewrite Z.mul_1_r. intros ->. apply Z.quot_mul. discriminate.
Qed.

(** Bounds on a quotient rounded towards zero. *)
Lemma quot_between (a b lo hi : Z) :
  0 < b -> lo <= 0 -> 0 < hi -> b * lo <= a -> a < b * hi -> lo <= Z.quot a b < hi.
Proof.
  intros Hb Hlo Hhi H1 H2. destruct (Z_lt_le_dec a 0) as [Hneg|Hpos].
  - assert (E : Z.quot a b = - Z.quot (- a) b).
    { rewrite Z.quot_opp_l by lia. lia. }
    assert (0 <= Z.quot (- a) b) by (apply Z.quot_pos; lia).
    assert (Z.quot (- a) b <= - lo) by (apply Z.quot_le_upper_bound; nia).
    lia.
  - assert (0 <= Z.quot a b) by (apply Z.quot_pos; lia).
    assert (Z.quot a b < hi) by (apply Z.quot_lt_upper_bound; lia).
    lia.
Qed.

Lemma quot_below (a b lo : Z) : 0 < b -> lo <= 0 -> a <= b * (lo - 1) -> Z.quot a b < lo.
Proof.
  intros Hb Hlo H.
  assert (E : Z.quot a b = - Z.quot (- a) b).
  { rewrite Z.quot_opp_l by lia. lia. }
  assert (- lo + 1 <= Z.quot (- a) b) by (apply Z.quot_le_lower_bound; nia).
  lia.
Qed.

Lemma truncate_normalized q :
  (-1 <= q)%Q -> (q < 1)%Q -> -32768 <= truncate (q * 32768) < 32768.
Proof.
  destruct q as [n d]. rewrite truncate_scaled. unfold Qle, Qlt. cbn [Qnum Qden].
  intros Hlo Hhi. apply quot_between; lia.
Qed.

Lemma truncate_monotone_above q : (1 <= q)%Q -> 32768 <= truncate (q * 32768).
Proof.
  destruct q as [n d]. rewrite truncate_scaled. unfold Qle. cbn [Qnum Qden].
  intros H. apply Z.quot_le_lower_bound; [reflexivity | lia].
Qed.

Lemma truncate_far_below q : (q * 32768 <= -32769)%Q -> truncate (q * 32768) < -32768.
Proof.
  destruct q as [n d]. rewrite truncate_scaled. unfold Qle. cbn [Qmult Qnum Qden].
  rewrite Pos.mul_1_r, Z.mul_1_r. intros H. apply quot_below; lia.
Qed.

End Pcm.

(** C9.  Every finite sample [s] of the input is stored as
    [ToInt16 (s * 32768)]: the product, cut to its integral part, taken
    modulo [2^16] into the signed 16-bit range, with no clamping.  A sample
    in [[-1, 1)] therefore gets the integral part of [s * 32768] itself (the
    product itself when it is an integer), while a sample outside wraps round:
    1.0 becomes -32768, and every sample from 1.0 up or from -32769/32768
    down is stored as a value other than its scaled one. *)
Theorem pcm16_scaling_wraps (data : list JS.number) (i : nat) (s : Q) :
  data !! i = Some (JS.finite s) ->
  exists r : Z,
    LiveAgent.to_int16 data !! i = Some r
    /\ r = JS.ToInt16 (JS.finite (s * 32768))
    /\ -32768 <= r < 32768
    /\ (r - JS.truncate (s * 32768)) mod 65536 = 0
    /\ ((-1 <= s)%Q -> (s < 1)%Q -> r = JS.truncate (s * 32768))
    /\ (forall k : Z, (s * 32768 == inject_Z k)%Q -> -32768 <= k < 32768 -> r = k)
    /\ ((s == 1)%Q -> r = -32768)
    /\ ((1 <= s)%Q -> r <> JS.truncate (s * 32768))
    /\ ((s * 32768 <= -32769)%Q -> r <> JS.truncate (s * 32768)).
Proof.
  intros Hi. exists (JS.ToInt16 (JS.finite (s * 32768))).
  split. { unfold LiveAgent.to_int16. rewrite list_lookup_fmap, Hi. reflexivity. }
  split; [reflexivity|].
  split; [apply ToInt16_range|].
  split; [apply ToInt16_congruent|].
  split. { intros Hlo Hhi. apply ToInt16_small. now apply truncate_normalized. }
  split. { intros k Hk Hr. rewrite ToInt16_small; rewrite (truncate_integer _ k Hk); auto. }
  split. { intros H1.
           assert (E : JS.truncate (s * 32768) = 32768).
           { apply truncate_integer. rewrite H1. reflexivity. }
           cbn. rewrite E. reflexivity. }
  split.
  - intros H. apply ToInt16_large. right. now apply truncate_monotone_above.
  - intros H. apply ToInt16_large. left. now apply truncate_far_below.
Qed.

Lemma pcm16_scaling_wraps_witness :
  [JS.finite (1 # 2); JS.finite 1] !! 1%nat = Some (JS.finite 1)
  /\ exists r : Z,
       LiveAgent.to_int16 [JS.finite (1 # 2); JS.finite 1] !! 1%nat = Some r
       /\ r = JS.ToInt16 (JS.finite (1 * 32768))
       /\ -32768 <= r < 32768
       /\ (r - JS.truncate (1 * 32768)) mod 65536 = 0
       /\ ((-1 <= 1)%Q -> (1 < 1)%Q -> r = JS.truncate (1 * 32768))
       /\ (forall k : Z, (1 * 32768 == inject_Z k)%Q -> -32768 <= k < 32768 -> r = k)
       /\ ((1 == 1)%Q -> r = -32768)
       /\ ((1 <= 1)%Q -> r <> JS.truncate (1 * 32768))
       /\ ((1 * 32768 <= -32769)%Q -> r <> JS.truncate (1 * 32768)).
Proof.
  split; [reflexivity|].
  apply (pcm16_scaling_wraps [JS.finite (1 # 2); JS.finite 1] 1 1). reflexivity.
Defined.

(** Half scale, full scale, and the bytes that leave the browser. *)
Example pcm16_samples :
  LiveAgent.to_int16 [JS.finite (1 # 2); JS.finite (- (1)); JS.finite 1; JS.finite (3 # 2); JS.NaN]
  = [16384; -32768; -32768; -16384; 0]
  /\ LiveAgent.createBlob [JS.finite 1; JS.finite (1 # 2); JS.finite (- (1))]
     = LiveAgent.mkBlob "AIAAQACA" "audio/pcm;rate=16000".
Proof. split; reflexivity. Qed.

(** * Further properties *)

(** ** Guest sessions *)

Section GuestSessions.

Import Session Firestore Entitlement.

Lemma resolve_guest_stored w g :
  guestProfile w = Some g ->
  onAuthStateChanged None w = (Returned tt, set_user (Some g) w).
Proof.
  intros H. unfold onAuthStateChanged, localStorage_getItem.
  rewrite bind_bind, bind_get, bind_ret, H. reflexivity.
Qed.

Lemma resolve_guest_new w :
  guestProfile w = None ->
  onAuthStateChanged None w
  = (Returned tt,
     mkWorld (remote w) (Some (new_guest (clock w))) (Some (new_guest (clock w)))
       (net w) (clock w) (events w)).
Proof.
  intros H. unfold onAuthStateChanged, localStorage_getItem.
  rewrite bind_bind, bind_get, bind_ret, H. reflexivity.
Qed.

End GuestSessions.

(** X1.  With no identity the session is a guest session read from local
    storage: a stored profile is restored as it is, and when there is none a
    guest with 10 coins is created and stored.  The run never fails, makes no
    remote call, leaves memory and storage in agreement, and running it again
    changes nothing. *)
Theorem guest_resolution (w : World) :
  exists (w' : World) (g : UserProfile),
    Session.onAuthStateChanged None w = (Returned tt, w')
    /\ user w' = Some g
    /\ guestProfile w' = Some g
    /\ g = default (new_guest (clock w)) (guestProfile w)
    /\ remote w' = remote w
    /\ net w' = net w
    /\ events w' = events w
    /\ Session.onAuthStateChanged None w' = (Returned tt, w').
Proof.
  destruct (guestProfile w) as [g|] eqn:H.
  - rewrite (resolve_guest_stored w g H).
    exists (set_user (Some g) w), g. repeat split; try assumption.
    now rewrite (resolve_guest_stored (set_user (Some g) w) g H).
  - rewrite (resolve_guest_new w H). eexists _, _. split; [reflexivity|].
    repeat split.
Qed.

(** ** Invariants of the remote calls *)

Section RemoteInvariants.

Import Firestore.

Variable I : World -> Prop.
Hypothesis I_net : forall w l, I w -> I (set_net l w).
Hypothesis I_emit : forall w e, I w -> I (emit e w).

Lemma keeps_request : keeps I request.
Proof.
  intros w H. unfold request. destruct (net w) as [|[] l]; cbn [snd]; auto.
Qed.

Lemma keeps_getDoc id : keeps I (getDoc id).
Proof.
  unfold getDoc.
  apply keeps_bind; [exact keeps_request | intros _].
  apply keeps_bind; [apply keeps_modify; intros w H; now apply I_emit | intros _].
  apply keeps_bind; [apply keeps_get | intros ?; apply keeps_ret].
Qed.

Lemma keeps_setDoc id d :
  (forall w, I w -> I (set_remote (insert id d) w)) -> keeps I (setDoc id d).
Proof.
  intros Hw. unfold setDoc.
  apply keeps_bind; [exact keeps_request | intros _].
  apply keeps_modify. intros w H. now apply I_emit, Hw.
Qed.

Lemma keeps_updateDoc id up :
  (forall w d, I w -> remote w !! id = Some d ->
     I (set_remote (insert id (apply_updates up d)) w)) ->
  keeps I (updateDoc id up).
Proof.
  intros Hw. unfold updateDoc.
  apply keeps_bind; [exact keeps_request | intros _].
  intros w H. rewrite bind_get.
  destruct (remote w !! id) as [d|] eqn:E; [|exact H].
  cbn [Eff.modify snd]. now apply I_emit, Hw.
Qed.

(** Session resolution for an identity: an invariant that holds once the
    stored guest profile is removed, that the writes to the identity's
    document respect and that does not look at the profile in memory, holds
    at the end of the run, however it ends. *)
Lemma resolution_invariant cu :
  (forall w d, I w -> I (set_remote (insert (au_uid cu) d) w)) ->
  (forall w u, I w -> I (set_user u w)) ->
  forall w, I (set_guestProfile None w) -> I (snd (Session.onAuthStateChanged (Some cu) w)).
Proof.
  intros Hrem Huser w H0.
  unfold Session.onAuthStateChanged, Session.localStorage_removeItem, Session.Date_now,
    Session.setUser.
  rewrite bind_modify. revert H0. generalize (set_guestProfile None w). clear w.
  change (keeps I
    (Eff.bind (getDoc (au_uid cu)) (fun userDoc =>
       Eff.bind
         (match userDoc with
          | Some data =>
              Eff.bind (Eff.bind Eff.get (fun w => Eff.ret (clock w))) (fun now =>
                Eff.bind (updateDoc (au_uid cu)
                            {| up_lastLogin := Some now;
                               up_coins := match doc_coins data with
                                           | None => Some (literal 100) | Some _ => None end;
                               up_isPremium := match doc_isPremium data with
                                               | None => Some false | Some _ => None end |})
                  (fun _ => getDoc (au_uid cu)))
          | None =>
              Eff.bind (Eff.bind Eff.get (fun w => Eff.ret (clock w))) (fun now =>
                Eff.bind (setDoc (au_uid cu)
                            {| doc_displayName := au_displayName cu;
                               doc_email := au_email cu;
                               doc_photoURL := au_photoURL cu;
                               doc_lastLogin := Some now;
                               doc_coins := Some 100;
                               doc_isPremium := Some false |})
                  (fun _ => Eff.ret (Some
                            {| doc_displayName := au_displayName cu;
                               doc_email := au_email cu;
                               doc_photoURL := au_photoURL cu;
                               doc_lastLogin := Some now;
                               doc_coins := Some 100;
                               doc_isPremium := Some false |})))
          end)
         (fun userData =>
            Eff.modify (set_user (Some
              {| uid := au_uid cu;
                 displayName := au_displayName cu;
                 email := au_email cu;
                 photoURL := au_photoURL cu;
                 coins := userData ≫= doc_coins;
                 isGuest := false;
                 isPremium := userData ≫= doc_isPremium |})))))).
  apply keeps_bind; [apply keeps_getDoc | intros userDoc].
  apply keeps_bind; [|intros userData; apply keeps_modify; intros w H; now apply Huser].
  destruct userDoc as [data|].
  - apply keeps_bind; [apply keeps_bind; [apply keeps_get | intros ?; apply keeps_ret]|].
    intros now. apply keeps_bind; [|intros _; apply keeps_getDoc].
    apply keeps_updateDoc. intros w d H _. now apply Hrem.
  - apply keeps_bind; [apply keeps_bind; [apply keeps_get | intros ?; apply keeps_ret]|].
    intros now. apply keeps_bind; [|intros _; apply keeps_ret].
    apply keeps_setDoc. intros w H. now apply Hrem.
Qed.

End RemoteInvariants.

(** X2.  Whatever happened to a guest before, signing in and out again
    ends in a new guest profile with 10 coins and no premium flag: sign-in
    removes the stored guest profile before any remote call, also when the
    resolution then fails, and sign-out finds nothing to restore. *)
Theorem sign_in_and_out_resets_guest (cu : AuthUser) (w : World) :
  let w1 := snd (Session.onAuthStateChanged (Some cu) w) in
  let w2 := snd (Session.onAuthStateChanged None w1) in
  guestProfile w1 = None
  /\ user w2 = Some (new_guest (clock w))
  /\ guestProfile w2 = Some (new_guest (clock w)).
Proof.
  cbn zeta.
  assert (G : guestProfile (snd (Session.onAuthStateChanged (Some cu) w)) = None
              /\ clock (snd (Session.onAuthStateChanged (Some cu) w)) = clock w).
  { apply (resolution_invariant (fun x => guestProfile x = None /\ clock x = clock w));
      auto. }
  destruct G as [G1 G2]. split; [exact G1|].
  rewrite (resolve_guest_new _ G1). cbn [snd user guestProfile]. rewrite G2.
  split; reflexivity.
Qed.

(** ** What a submit does to the balances *)

Section SubmitEffect.

Import Session Firestore Entitlement.

Lemma charged_frame COST u w0 w w' :
  remote w0 = remote w -> guestProfile w0 = guestProfile w ->
  charged COST u w0 w' -> charged COST u w w'.
Proof.
  unfold charged. intros Hr Hg (H1 & H2 & H3 & H4). repeat split; try assumption.
  destruct (isGuest u); rewrite <- ?Hr, <- ?Hg; exact H4.
Qed.

Lemma unchanged_frame w0 w w' :
  balances_unchanged w w0 -> balances_unchanged w0 w' -> balances_unchanged w w'.
Proof.
  intros (A1 & A2 & A3) (B1 & B2 & B3). repeat split; congruence.
Qed.

(** Past the gate, the debit charges once or, when the remote decrement
    fails, not at all. *)
Lemma debit_effect COST u w :
  hasEnoughCoins COST (Some u) = true ->
  balances_unchanged w (snd (debit COST u w)) \/ charged COST u w (snd (debit COST u w)).
Proof.
  intros Hgate. destruct (isPremiumOf (Some u)) eqn:Hp.
  - left. rewrite debit_premium by exact Hp. repeat split.
  - assert (Hb : COST <= balance u).
    { rewrite gate_spec, Hp in Hgate. now apply Z.leb_le in Hgate. }
    destruct (isGuest u) eqn:Hg.
    + right. rewrite (debit_guest COST u w Hp Hg). unfold charged. rewrite Hg.
      repeat split; assumption.
    + unfold debit. rewrite Hp, Hg.
      destruct (updateDoc_cases (uid u) (mkUpdates None (Some (increment (- COST))) None) w)
        as [(e & w1 & E & H1 & H2 & H3 & _) | (w1 & d & E & Hd & H1 & H2 & H3 & _)].
      * left. rewrite (bind_threw _ _ _ _ _ E). repeat split; assumption.
      * right. rewrite (bind_returned _ _ _ _ _ E). unfold handleCoinsUpdate. rewrite Hg.
        unfold setUser. eff_simpl. unfold charged. rewrite Hg. cbn [snd Eff.ret].
        split; [exact Hp|]. split; [exact Hb|]. split; [reflexivity|].
        split; [exact H3|]. exists d. split; [exact Hd|]. exact H1.
Qed.

Lemma image_effect generateImage u w p :
  let w' := world_after (ImageGenerator.handleSubmit generateImage (Some u) (w, p)) in
  balances_unchanged w w' \/ charged ImageGenerator.IMAGE_COST u w w'.
Proof.
  cbn zeta. rewrite image_world. cbn zeta.
  destruct (_ || _); [left; repeat split|].
  destruct (hasEnoughCoins ImageGenerator.IMAGE_COST (Some u)) eqn:Hgate;
    [|left; repeat split]. cbn [negb].
  destruct (generateImage _ _ _) as [urls|e]; [|left; repeat split].
  set (w2 := emit _ (emit _ w)).
  destruct (debit_effect ImageGenerator.IMAGE_COST u w2 Hgate) as [H|H].
  - left. apply (unchanged_frame w2); [repeat split | exact H].
  - right. apply (charged_frame _ _ w2); [reflexivity | reflexivity | exact H].
Qed.

Lemma video_effect generateVideo generateSpeech createObjectURL u w p :
  let w' := world_after (VideoGenerator.handleSubmit generateVideo generateSpeech
                           createObjectURL (Some u) (w, p)) in
  balances_unchanged w w' \/ charged VideoGenerator.VIDEO_COST u w w'.
Proof.
  cbn zeta. rewrite video_world. cbn zeta.
  destruct (VideoGenerator.isGenerateDisabled p (Some u)) eqn:Hd; [left; repeat split|].
  assert (Hgate : hasEnoughCoins VideoGenerator.VIDEO_COST (Some u) = true).
  { unfold VideoGenerator.isGenerateDisabled in Hd.
    destruct (hasEnoughCoins VideoGenerator.VIDEO_COST (Some u)); [reflexivity|].
    rewrite orb_true_r in Hd. discriminate. }
  set (w2 := if VideoGenerator.speaks p then _ else _).
  assert (F : balances_unchanged w w2 /\ remote w2 = remote w
              /\ guestProfile w2 = guestProfile w).
  { subst w2. destruct (VideoGenerator.speaks p); repeat split. }
  destruct F as (F1 & F2 & F3).
  destruct (generateVideo _ _ _ _) as [url|e];
    [destruct (VideoGenerator.audioReply _ _ _) as [audio|e']|]; try (left; exact F1).
  set (w3 := emit _ w2).
  destruct (debit_effect VideoGenerator.VIDEO_COST u w3 Hgate) as [H|H].
  - left. apply (unchanged_frame w3); [exact F1 | exact H].
  - right. apply (charged_frame _ _ w3); [exact F2 | exact F3 | exact H].
Qed.

(** What [charged] and [balances_unchanged] preserve. *)
Lemma effect_invariants COST u w w' :
  0 <= COST -> user w = Some u -> 0 <= balance u ->
  balances_unchanged w w' \/ charged COST u w w' ->
  (exists u', user w' = Some u' /\ 0 <= balance u' <= balance u
              /\ uid u' = uid u /\ isGuest u' = isGuest u /\ isPremium u' = isPremium u)
  /\ (guest_synced w -> guest_synced w')
  /\ (mirrored w -> mirrored w').
Proof.
  intros Hc Hu Hb [(H1 & H2 & H3) | (Hp & Hle & Hu' & Hrest)].
  - split; [|split].
    + exists u. rewrite H1. repeat split; try assumption; lia.
    + unfold guest_synced. now rewrite H1, H2.
    + unfold mirrored. now rewrite H1, H3.
  - split; [|split].
    + eexists. split; [exact Hu'|]. unfold balance, with_coins; cbn.
      fold (balance u). repeat split; lia.
    + intros _ u1 Hu1 Hg1. rewrite Hu' in Hu1. inversion Hu1; subst u1. cbn in Hg1.
      rewrite Hg1 in Hrest. destruct Hrest as [Hr _]. now rewrite Hr.
    + intros Hm u1 d1 Hu1 Hg1 Hd1. rewrite Hu' in Hu1. inversion Hu1; subst u1.
      cbn in Hg1, Hd1 |- *. rewrite Hg1 in Hrest.
      destruct Hrest as (_ & d & Hd & Hr). rewrite Hr, lookup_insert_eq in Hd1.
      inversion Hd1; subst d1. cbn. unfold balance.
      now rewrite (Hm u d Hu Hg1 Hd).
Qed.

End SubmitEffect.

(** X3.  A submit of either paid panel, whatever the gateway and the
    network do, leaves all balances as they were or charges the price exactly
    once: the balance in memory goes down by the price together with the
    stored guest profile (guest) or with the remote document (member), never
    one without the other. *)
Theorem submit_charges_once_or_not (u : UserProfile) (w : World) :
  (forall generateImage p,
     let w' := world_after (ImageGenerator.handleSubmit generateImage (Some u) (w, p)) in
     balances_unchanged w w' \/ charged ImageGenerator.IMAGE_COST u w w')
  /\ (forall generateVideo generateSpeech createObjectURL p,
        let w' := world_after (VideoGenerator.handleSubmit generateVideo generateSpeech
                                 createObjectURL (Some u) (w, p)) in
        balances_unchanged w w' \/ charged VideoGenerator.VIDEO_COST u w w').
Proof.
  split.
  - intros generateImage p. apply image_effect.
  - intros generateVideo generateSpeech createObjectURL p. apply video_effect.
Qed.

(** X4.  When a panel is given the profile in memory and its balance is
    not negative, a submit keeps the balance between zero and its old value,
    keeps the identity, guest and premium fields, keeps a guest in memory
    equal to the stored guest profile, and keeps a member's balance equal to
    the coins of the remote document when they were equal before. *)
Theorem submit_keeps_balance_invariants (u : UserProfile) (w : World) :
  user w = Some u ->
  0 <= balance u ->
  (forall generateImage p,
     let w' := world_after (ImageGenerator.handleSubmit generateImage (Some u) (w, p)) in
     (exists u', user w' = Some u' /\ 0 <= balance u' <= balance u
                 /\ uid u' = uid u /\ isGuest u' = isGuest u /\ isPremium u' = isPremium u)
     /\ (guest_synced w -> guest_synced w')
     /\ (mirrored w -> mirrored w'))
  /\ (forall generateVideo generateSpeech createObjectURL p,
        let w' := world_after (VideoGenerator.handleSubmit generateVideo generateSpeech
                                 createObjectURL (Some u) (w, p)) in
        (exists u', user w' = Some u' /\ 0 <= balance u' <= balance u
                    /\ uid u' = uid u /\ isGuest u' = isGuest u /\ isPremium u' = isPremium u)
        /\ (guest_synced w -> guest_synced w')
        /\ (mirrored w -> mirrored w')).
Proof.
  intros Hu Hb. split.
  - intros generateImage p. cbn zeta.
    apply (effect_invariants ImageGenerator.IMAGE_COST u w); try assumption;
      [discriminate | apply image_effect].
  - intros generateVideo generateSpeech createObjectURL p. cbn zeta.
    apply (effect_invariants VideoGenerator.VIDEO_COST u w); try assumption;
      [discriminate | apply video_effect].
Qed.

Lemma submit_keeps_balance_invariants_witness :
  user (Sample.with_doc (Sample.doc 40) (Some (Sample.member 40))) = Some (Sample.member 40)
  /\ 0 <= balance (Sample.member 40)
  /\ mirrored (Sample.with_doc (Sample.doc 40) (Some (Sample.member 40)))
  /\ mirrored (world_after (ImageGenerator.handleSubmit Sample.image_ok
                              (Some (Sample.member 40))
                              (Sample.with_doc (Sample.doc 40) (Some (Sample.member 40)),
                               Sample.image_panel))).
Proof.
  assert (Hm : mirrored (Sample.with_doc (Sample.doc 40) (Some (Sample.member 40)))).
  { intros u d Hu _ Hd. inversion Hu; subst u. cbn in Hd.
    rewrite lookup_singleton_eq in Hd. inversion Hd; subst d. reflexivity. }
  assert (Hb : 0 <= balance (Sample.member 40)) by (vm_compute; discriminate).
  split; [reflexivity|]. split; [exact Hb|]. split; [exact Hm|].
  exact (proj2 (proj2 (proj1 (submit_keeps_balance_invariants (Sample.member 40)
           (Sample.with_doc (Sample.doc 40) (Some (Sample.member 40))) eq_refl Hb)
           Sample.image_ok Sample.image_panel)) Hm).
Defined.

(** ** Guests and reloads *)

Section Reload.

Import Session Entitlement.

Lemma synced_guest_restored w u :
  user w = Some u -> isGuest u = true -> guest_synced w -> restored_by_reload w.
Proof.
  intros Hu Hg Hs. unfold restored_by_reload.
  rewrite (resolve_guest_stored (reload w) u (Hs u Hu Hg)). cbn. now rewrite Hu.
Qed.

Lemma handleCoinsUpdate_guest u b w :
  isGuest u = true ->
  handleCoinsUpdate (Some u) b w
  = (Returned tt,
     mkWorld (remote w) (Some (with_coins (Some b) u)) (Some (with_coins (Some b) u))
       (net w) (clock w) (events w ++ [CoinsSet b])).
Proof. intros Hg. unfold handleCoinsUpdate. rewrite Hg. reflexivity. Qed.

End Reload.

(** X5.  What a guest does survives a reload of the page: after a change
    of the balance, after unlocking premium and after a submit of either
    paid panel, the signed-out resolution of a fresh page load brings back
    exactly the profile that was in memory, so a reload neither refunds
    coins nor drops the premium flag. *)
Theorem guest_state_survives_reload (u : UserProfile) (w : World) :
  user w = Some u ->
  isGuest u = true ->
  guest_synced w ->
  (forall b, restored_by_reload (snd (Session.handleCoinsUpdate (Some u) b w)))
  /\ restored_by_reload (snd (Session.handlePremiumUnlocked (Some u) w))
  /\ (forall generateImage p,
        restored_by_reload
          (world_after (ImageGenerator.handleSubmit generateImage (Some u) (w, p))))
  /\ (forall generateVideo generateSpeech createObjectURL p,
        restored_by_reload
          (world_after (VideoGenerator.handleSubmit generateVideo generateSpeech
                          createObjectURL (Some u) (w, p)))).
Proof.
  intros Hu Hg Hs.
  assert (Hsub : forall COST w',
            balances_unchanged w w' \/ charged COST u w w' -> restored_by_reload w').
  { intros COST w' [(H1 & H2 & H3) | (Hp & Hle & Hu' & Hrest)].
    - apply (synced_guest_restored w' u); [congruence | exact Hg |].
      unfold guest_synced. rewrite H1, H2. exact Hs.
    - rewrite Hg in Hrest. destruct Hrest as [Hr _].
      eapply synced_guest_restored; [exact Hu' | exact Hg |].
      intros u1 Hu1 _. rewrite Hr. exact Hu1. }
  split; [|split; [|split]].
  - intros b. rewrite (handleCoinsUpdate_guest u b w Hg).
    eapply synced_guest_restored; [reflexivity | exact Hg |].
    intros u1 Hu1 _. cbn in *. exact Hu1.
  - rewrite (handlePremiumUnlocked_guest u w Hg).
    eapply synced_guest_restored; [reflexivity | reflexivity |].
    intros u1 Hu1 _. cbn in *. exact Hu1.
  - intros generateImage p. apply (Hsub ImageGenerator.IMAGE_COST), image_effect.
  - intros generateVideo generateSpeech createObjectURL p.
    apply (Hsub VideoGenerator.VIDEO_COST), video_effect.
Qed.

Lemma guest_state_survives_reload_witness :
  user Sample.as_guest = Some Sample.guest
  /\ isGuest Sample.guest = true
  /\ guest_synced Sample.as_guest
  /\ restored_by_reload
       (world_after (ImageGenerator.handleSubmit Sample.image_ok (Some Sample.guest)
                       (Sample.as_guest, Sample.image_panel)))
  /\ user (world_after (ImageGenerator.handleSubmit Sample.image_ok (Some Sample.guest)
                          (Sample.as_guest, Sample.image_panel))) ≫= coins = Some 5.
Proof.
  assert (Hs : guest_synced Sample.as_guest).
  { intros u1 Hu1 _. exact Hu1. }
  split; [reflexivity|]. split; [reflexivity|]. split; [exact Hs|]. split; [|reflexivity].
  exact (proj1 (proj2 (proj2 (guest_state_survives_reload Sample.guest Sample.as_guest
                                eq_refl eq_refl Hs))) Sample.image_ok Sample.image_panel).
Defined.

(** X6.  No handler writes the document of another user: session
    resolution, the premium unlock and the two paid submits leave every
    document other than that of their own user as it was, whether they end
    well or not; the signed-out resolution and [handleCoinsUpdate] leave the
    whole collection as it was. *)
Theorem writes_only_own_document (id : string) (w : World) :
  (forall cu, id <> au_uid cu ->
     remote (snd (Session.onAuthStateChanged (Some cu) w)) !! id = remote w !! id)
  /\ remote (snd (Session.onAuthStateChanged None w)) = remote w
  /\ (forall u b, remote (snd (Session.handleCoinsUpdate (Some u) b w)) = remote w)
  /\ (forall u, id <> uid u ->
        remote (snd (Session.handlePremiumUnlocked (Some u) w)) !! id = remote w !! id)
  /\ (forall u generateImage p, id <> uid u ->
        remote (world_after (ImageGenerator.handleSubmit generateImage (Some u) (w, p))) !! id
        = remote w !! id)
  /\ (forall u generateVideo generateSpeech createObjectURL p, id <> uid u ->
        remote (world_after (VideoGenerator.handleSubmit generateVideo generateSpeech
                               createObjectURL (Some u) (w, p))) !! id
        = remote w !! id).
Proof.
  assert (Hsub : forall COST u w', id <> uid u ->
            balances_unchanged w w' \/ charged COST u w w' ->
            remote w' !! id = remote w !! id).
  { intros COST u w' Hne [(_ & _ & H3) | (_ & _ & _ & Hrest)]; [now rewrite H3|].
    destruct (isGuest u).
    - destruct Hrest as [_ Hr]. now rewrite Hr.
    - destruct Hrest as (_ & d & _ & Hr). rewrite Hr. apply lookup_insert_ne. congruence. }
  split; [|split; [|split; [|split; [|split]]]].
  - intros cu Hne.
    apply (resolution_invariant (fun x => remote x !! id = remote w !! id)); auto.
    intros x d Hx. cbn. rewrite lookup_insert_ne by congruence. exact Hx.
  - destruct (guest_resolution w) as (w' & g & E & _ & _ & _ & Hr & _). now rewrite E.
  - intros u b. unfold Session.handleCoinsUpdate. destruct (isGuest u); reflexivity.
  - intros u Hne. destruct (isGuest u) eqn:Hg.
    + now rewrite (handlePremiumUnlocked_guest u w Hg).
    + rewrite (handlePremiumUnlocked_member u w Hg). cbn zeta.
      match goal with |- context [Firestore.updateDoc ?i ?up ?w0] =>
        destruct (updateDoc_remote i up w0) as [E | (d & _ & E)] end; rewrite E.
      * reflexivity.
      * cbn. apply lookup_insert_ne. congruence.
  - intros u generateImage p Hne.
    apply (Hsub ImageGenerator.IMAGE_COST u); [exact Hne | apply image_effect].
  - intros u generateVideo generateSpeech createObjectURL p Hne.
    apply (Hsub VideoGenerator.VIDEO_COST u); [exact Hne | apply video_effect].
Qed.

Lemma writes_only_own_document_witness :
  "bob" <> au_uid Sample.ada
  /\ remote (snd (Session.onAuthStateChanged (Some Sample.ada)
                    (Sample.with_doc Sample.old_doc None))) !! "bob"
     = remote (Sample.with_doc Sample.old_doc None) !! "bob".
Proof.
  assert (Hne : "bob" <> au_uid Sample.ada) by discriminate.
  split; [exact Hne|].
  exact (proj1 (writes_only_own_document "bob" (Sample.with_doc Sample.old_doc None))
           Sample.ada Hne).
Defined.

(** ** The colour theme *)

(** X7.  The theme the application starts with is light exactly when
    local storage is there and holds ['light']; the answer of the
    colour-scheme media query never changes it.  The value the effect stores
    is the one the initialiser reads back, and toggling twice gives the theme
    back. *)
Theorem theme_survives_reload (t : Theme.Theme) (storage : option (option string))
    (prefersDark prefersDark' : bool) :
  Theme.initialTheme (Some (Theme.persist t)) prefersDark = t
  /\ Theme.initialTheme storage prefersDark = Theme.initialTheme storage prefersDark'
  /\ (Theme.initialTheme storage prefersDark = Theme.light <-> storage = Some (Some "light"))
  /\ Theme.toggleTheme (Theme.toggleTheme t) = t
  /\ Theme.toggleTheme t <> t.
Proof.
  split; [now destruct t|]. split; [|split; [|split]].
  - destruct storage as [[s|]|]; cbn; [|now destruct prefersDark, prefersDark' | reflexivity].
    destruct (String.eqb s "light"); [reflexivity|].
    destruct (String.eqb s "dark"); [reflexivity|].
    now destruct prefersDark, prefersDark'.
  - destruct storage as [[s|]|]; cbn.
    + destruct (String.eqb s "light") eqn:E.
      * apply String.eqb_eq in E. subst s. split; reflexivity || auto.
      * split.
        -- destruct (String.eqb s "dark"); [discriminate|]. destruct prefersDark; discriminate.
        -- intros H. inversion H; subst s. discriminate E.
    + split; [destruct prefersDark; discriminate | discriminate].
    + split; discriminate.
  - now destruct t.
  - destruct t; discriminate.
Qed.

(** ** The state of the paid panels after a submit *)

Section PanelState.

Import Entitlement.

Lemma image_result generateImage u w p :
  ImageGenerator.handleSubmit generateImage (Some u) (w, p)
  = (Returned tt,
     if trim_is_empty (ImageGenerator.prompt p) || ImageGenerator.loading p then (w, p)
     else if negb (hasEnoughCoins ImageGenerator.IMAGE_COST (Some u)) then
       (w, ImageGenerator.setError
             ("You need at least " +:+ pretty ImageGenerator.IMAGE_COST
              +:+ " coins to generate images. You have "
              +:+ pretty (balance u) +:+ ".") p)
     else
       let p1 := ImageGenerator.setError EmptyString
                   (ImageGenerator.setImages [] (ImageGenerator.setLoading true p)) in
       let w1 := emit (GenerationCall "generateImage") w in
       match generateImage (ImageGenerator.finalPrompt p) (ImageGenerator.aspectRatio p)
               (ImageGenerator.numberOfImages p) with
       | Rejected _ =>
           (w1, ImageGenerator.setLoading false (ImageGenerator.setError image_catch_message p1))
       | Fulfilled urls =>
           match debit ImageGenerator.IMAGE_COST u (emit (GenerationDone "generateImage") w1) with
           | (Returned _, w2) =>
               (w2, ImageGenerator.setLoading false (ImageGenerator.setImages urls p1))
           | (Threw _, w2) =>
               (w2, ImageGenerator.setLoading false
                      (ImageGenerator.setError image_catch_message
                         (ImageGenerator.setImages urls p1)))
           end
       end).
Proof.
  unfold ImageGenerator.handleSubmit. rewrite bind_get. cbn [snd].
  destruct (trim_is_empty (ImageGenerator.prompt p) || ImageGenerator.loading p); [reflexivity|].
  destruct (negb (hasEnoughCoins ImageGenerator.IMAGE_COST (Some u))); [reflexivity|].
  unfold setPanel. rewrite !bind_modify.
  unfold Eff.try_finally, Eff.try_catch, inApp, await, Eff.bind, Eff.modify, Eff.ret, Eff.throw.
  cbn [fst snd].
  destruct (generateImage _ _ _) as [urls|e]; cbn [fst snd]; [|reflexivity].
  destruct (debit _ _ _) as [[[]|e] w']; reflexivity.
Qed.

Lemma video_result generateVideo generateSpeech createObjectURL u w p :
  VideoGenerator.handleSubmit generateVideo generateSpeech createObjectURL (Some u) (w, p)
  = (Returned tt,
     if VideoGenerator.isGenerateDisabled p (Some u) then (w, p)
     else
       let p1 := video_started p in
       let w1 := emit (GenerationCall "generateVideo") w in
       let w2 := if VideoGenerator.speaks p then emit (GenerationCall "generateSpeech") w1
                 else w1 in
       match generateVideo (VideoGenerator.finalPrompt p) (VideoGenerator.aspectRatio p)
               (VideoGenerator.image p) (VideoGenerator.duration p) with
       | Rejected e => (w2, VideoGenerator.setLoading false (video_catch e p1))
       | Fulfilled gv =>
           match VideoGenerator.audioReply generateSpeech createObjectURL p with
           | Rejected e => (w2, VideoGenerator.setLoading false (video_catch e p1))
           | Fulfilled ga =>
               match debit VideoGenerator.VIDEO_COST u
                       (emit (GenerationDone "generateVideo") w2) with
               | (Returned _, w3) =>
                   (w3, VideoGenerator.setLoading false (video_shown gv ga p1))
               | (Threw e, w3) =>
                   (w3, VideoGenerator.setLoading false (video_catch e (video_shown gv ga p1)))
               end
           end
       end).
Proof.
  unfold VideoGenerator.handleSubmit. rewrite bind_get. cbn [snd].
  destruct (VideoGenerator.isGenerateDisabled p (Some u)) eqn:Hd; [reflexivity|].
  assert (He : hasEnoughCoins VideoGenerator.VIDEO_COST (Some u) = true).
  { unfold VideoGenerator.isGenerateDisabled in Hd.
    destruct (hasEnoughCoins VideoGenerator.VIDEO_COST (Some u)); [reflexivity|].
    rewrite orb_true_r in Hd. discriminate. }
  rewrite He. cbn [negb].
  unfold setPanel. rewrite !bind_modify.
  unfold VideoGenerator.audioPromise, VideoGenerator.await_all, video_catch, video_shown,
    video_started,
    Eff.try_finally, Eff.try_catch, inApp, Eff.bind, Eff.modify, Eff.ret, Eff.throw.
  cbn [fst snd].
  destruct (VideoGenerator.speaks p); cbn [fst snd];
    destruct (VideoGenerator.audioReply generateSpeech createObjectURL p) as [[a|]|e2];
    destruct (generateVideo _ _ _ _) as [gv|e1];
    cbn [fst snd];
    try (destruct (debit _ _ _) as [[[]|e] w']; cbn [fst snd]);
    try (destruct (includes _ _); reflexivity); reflexivity.
Qed.

End PanelState.

(** X8.  A submit of either paid panel never ends with an exception,
    whatever the gateway and the network do; a panel that was not loading
    before is not loading after, and the form (prompt, ratio, style, count,
    audio settings) is what it was. *)
Theorem submit_never_throws (user : option UserProfile) (w : World) :
  (forall generateImage p,
     let r := ImageGenerator.handleSubmit generateImage user (w, p) in
     fst r = Returned tt
     /\ (ImageGenerator.loading p = false -> ImageGenerator.loading (panel_after r) = false)
     /\ image_form (panel_after r) = image_form p)
  /\ (forall generateVideo generateSpeech createObjectURL p,
        let r := VideoGenerator.handleSubmit generateVideo generateSpeech createObjectURL
                   user (w, p) in
        fst r = Returned tt
        /\ (VideoGenerator.loading p = false -> VideoGenerator.loading (panel_after r) = false)
        /\ video_form (panel_after r) = video_form p).
Proof.
  destruct user as [u|]; [|split; intros; cbn; repeat split; auto].
  split.
  - intros generateImage p. cbn zeta. rewrite image_result. unfold panel_after. cbn [fst snd].
    split; [reflexivity|].
    destruct (_ || _); [split; [auto | reflexivity]|].
    destruct (negb _); [split; [auto | reflexivity]|]. cbn zeta.
    destruct (generateImage _ _ _) as [urls|e]; [|split; [reflexivity | reflexivity]].
    destruct (Entitlement.debit _ _ _) as [[[]|e] w2]; split; reflexivity.
  - intros generateVideo generateSpeech createObjectURL p. cbn zeta.
    rewrite video_result. unfold panel_after. cbn [fst snd].
    split; [reflexivity|].
    destruct (VideoGenerator.isGenerateDisabled _ _); [split; [auto | reflexivity]|].
    cbn zeta. unfold video_catch, video_shown.
    destruct (generateVideo _ _ _ _) as [gv|e];
      [destruct (VideoGenerator.audioReply _ _ _) as [ga|e];
       [destruct (Entitlement.debit _ _ _) as [[[]|e] w3]|]|];
      try destruct ga; try destruct (includes _ _); split; reflexivity.
Qed.

Lemma submit_never_throws_witness :
  ImageGenerator.loading Sample.image_panel = false
  /\ fst (ImageGenerator.handleSubmit Sample.image_down (Some (Sample.member 40))
            (Sample2.member_offline, Sample.image_panel)) = Returned tt
  /\ ImageGenerator.loading
       (panel_after (ImageGenerator.handleSubmit Sample.image_down (Some (Sample.member 40))
                       (Sample2.member_offline, Sample.image_panel))) = false.
Proof.
  split; [reflexivity|].
  destruct (proj1 (submit_never_throws (Some (Sample.member 40)) Sample2.member_offline)
              Sample.image_down Sample.image_panel) as (H1 & H2 & _).
  split; [exact H1 | exact (H2 eq_refl)].
Defined.





(** ** The gateway client *)

Section GatewayFacts.

Import Gateway.

Lemma truthy_nonempty s : truthy s = true -> default EmptyString s <> EmptyString.
Proof. destruct s as [[|c s]|]; cbn; intros H; discriminate. Qed.

Lemma sourceOf_usable chunk s :
  sourceOf chunk = Some s -> uri s <> EmptyString /\ title s <> EmptyString.
Proof.
  unfold sourceOf.
  destruct (match web chunk with Some p => Some p | None => maps chunk end) as [source|];
    [|discriminate].
  destruct (truthy (place_uri source)) eqn:Hu; [|discriminate]. cbn [negb].
  intros H. inversion H; subst s; clear H. cbn [uri title].
  split; [now apply truthy_nonempty|].
  destruct (truthy (place_title source)) eqn:Ht; now apply truthy_nonempty.
Qed.

Lemma length_omap_le {A B} (f : A -> option B) (l : list A) :
  (length (omap f l) <= length l)%nat.
Proof.
  induction l as [|a l IH]; cbn; [lia|]. destruct (f a); cbn; lia.
Qed.

End GatewayFacts.

(** X11.  A grounded search sends the visitor's location only when Maps
    grounding is switched on, and always asks for Google Search.  Every
    source it returns has a link and a title that are not empty, the title
    being the link when the chunk has none; there are at most as many sources
    as chunks, a chunk whose web entry has no link gives no source even when
    its maps entry has one, and a response without candidates gives none. *)
Theorem grounded_search_sources
    (generateContent : Gateway.SearchRequest -> Reply Gateway.SearchResponse)
    (query : string) (useMaps : bool) (location : option Gateway.LatLng) :
  let request := Gateway.searchRequest query useMaps location in
  Gateway.search_contents request = query
  /\ In Gateway.googleSearch (Gateway.tools (Gateway.search_config request))
  /\ (In Gateway.googleMaps (Gateway.tools (Gateway.search_config request)) <-> useMaps = true)
  /\ (forall l, Gateway.toolConfig (Gateway.search_config request) = Some l
                <-> useMaps = true /\ location = Some l)
  /\ (forall result,
        Gateway.groundedSearch generateContent query useMaps location = Fulfilled result ->
        exists response,
          generateContent request = Fulfilled response
          /\ Gateway.text result = Gateway.response_text response
          /\ Forall (fun s => Gateway.uri s <> EmptyString /\ Gateway.title s <> EmptyString)
               (Gateway.sources result)
          /\ (length (Gateway.sources result) <= length (Gateway.chunksOf response))%nat
          /\ (Gateway.candidates response = None -> Gateway.sources result = []))
  /\ (forall chunk place,
        Gateway.web chunk = Some place -> Gateway.truthy (Gateway.place_uri place) = false ->
        Gateway.sourceOf chunk = None)
  /\ (forall chunk place,
        Gateway.web chunk = Some place -> Gateway.truthy (Gateway.place_uri place) = true ->
        Gateway.truthy (Gateway.place_title place) = false ->
        exists s, Gateway.sourceOf chunk = Some s /\ Gateway.title s = Gateway.uri s
                  /\ Some (Gateway.uri s) = Gateway.place_uri place).
Proof.
  cbn zeta. split; [reflexivity|]. split; [now left|]. split; [|split; [|split; [|split]]].
  - cbn. destruct useMaps; cbn; split; intros H; auto; try discriminate.
    destruct H as [H|[]]; discriminate.
  - intros l. cbn. destruct useMaps; cbn.
    + destruct location as [l0|]; cbn; split.
      * intros H. now inversion H.
      * intros [_ H]. exact H.
      * discriminate.
      * intros [_ H]. discriminate.
    + split; [discriminate | intros [H _]; discriminate].
  - intros result. unfold Gateway.groundedSearch.
    destruct (generateContent _) as [response|e]; [|discriminate].
    intros H. inversion H; subst result; clear H. exists response. cbn.
    split; [reflexivity|]. split; [reflexivity|]. split; [|split].
    + apply Forall_forall. intros s Hs.
      apply list_elem_of_omap in Hs as (chunk & _ & Hc). exact (sourceOf_usable chunk s Hc).
    + apply length_omap_le.
    + intros Hc. unfold Gateway.chunksOf. now rewrite Hc.
  - intros chunk place Hw Hu. unfold Gateway.sourceOf. now rewrite Hw, Hu.
  - intros chunk place Hw Hu Ht. unfold Gateway.sourceOf. rewrite Hw, Hu, Ht. cbn.
    eexists. split; [reflexivity|]. split; [reflexivity|]. cbn.
    destruct (Gateway.place_uri place) as [[|c s]|]; try discriminate. reflexivity.
Qed.

Lemma grounded_search_sources_witness :
  Gateway.groundedSearch Sample3.search_answer "cafes" false None
  = Fulfilled (Gateway.mkSearchResult "An answer."
                 [Gateway.mkGroundingSource "https://example.org" "https://example.org"])
  /\ Gateway.web Sample3.half_chunk = Some (Gateway.mkPlace None (Some "Cafe"))
  /\ Gateway.sourceOf Sample3.half_chunk = None.
Proof.
  split; [reflexivity|]. split; [reflexivity|].
  exact (proj1 (proj2 (proj2 (proj2 (proj2 (proj2
           (grounded_search_sources Sample3.search_answer "cafes" false None))))))
           Sample3.half_chunk _ eq_refl eq_refl).
Defined.

(** X12.  In a video request an empty list of reference images counts as
    none and a duration of zero as no duration.  With reference images the
    request goes to the full model in 16:9 whatever ratio was asked for and
    carries every image, in order, as a JPEG asset; without them it goes to
    the fast model in the ratio asked for and carries none. *)
Theorem video_payload_cases (prompt aspectRatio : string) (image : option (string * string))
    (duration : option Z) (referenceImages : option (list string)) :
  Gateway.videoPayload prompt aspectRatio image duration (Some [])
  = Gateway.videoPayload prompt aspectRatio image duration None
  /\ Gateway.videoPayload prompt aspectRatio image (Some 0) referenceImages
     = Gateway.videoPayload prompt aspectRatio image None referenceImages
  /\ (forall d, d <> 0 ->
        Gateway.config_duration
          (Gateway.video_config
             (Gateway.videoPayload prompt aspectRatio image (Some d) referenceImages))
        = Some (pretty d +:+ "s"))
  /\ (forall first rest, referenceImages = Some (first :: rest) ->
        let payload := Gateway.videoPayload prompt aspectRatio image duration referenceImages in
        Gateway.video_model payload = "veo-3.1-generate-preview"
        /\ Gateway.config_aspectRatio (Gateway.video_config payload) = "16:9"
        /\ exists refs,
             Gateway.config_referenceImages (Gateway.video_config payload) = Some refs
             /\ map Gateway.ref_imageBytes refs = first :: rest
             /\ Forall (fun r => Gateway.ref_mimeType r = "image/jpeg"
                                 /\ Gateway.referenceType r = "ASSET") refs)
  /\ (Gateway.hasReferenceImages referenceImages = false ->
        let payload := Gateway.videoPayload prompt aspectRatio image duration referenceImages in
        Gateway.video_model payload = "veo-3.1-fast-generate-preview"
        /\ Gateway.config_aspectRatio (Gateway.video_config payload) = aspectRatio
        /\ Gateway.config_referenceImages (Gateway.video_config payload) = None).
Proof.
  split; [reflexivity|]. split; [reflexivity|]. split; [|split].
  - intros d Hd. cbn. destruct (Z.eqb_spec d 0); [contradiction | reflexivity].
  - intros first rest ->. cbn zeta. cbn [Gateway.videoPayload Gateway.hasReferenceImages
      Gateway.video_model Gateway.video_config Gateway.config_aspectRatio
      Gateway.config_referenceImages default].
    split; [reflexivity|]. split; [reflexivity|]. eexists. split; [reflexivity|].
    split.
    + rewrite map_map. cbn. now rewrite map_id.
    + apply Forall_forall. intros r Hr. apply list_elem_of_fmap in Hr as (x & -> & _).
      split; reflexivity.
  - intros H. unfold Gateway.videoPayload. rewrite H. repeat split.
Qed.

Lemma video_payload_cases_witness :
  let payload := Gateway.videoPayload "a trailer" "9:16" None None (Some ["f1"; "f2"; "f3"]) in
  Gateway.video_model payload = "veo-3.1-generate-preview"
  /\ Gateway.config_aspectRatio (Gateway.video_config payload) = "16:9"
  /\ exists refs,
       Gateway.config_referenceImages (Gateway.video_config payload) = Some refs
       /\ map Gateway.ref_imageBytes refs = ["f1"; "f2"; "f3"]
       /\ Forall (fun r => Gateway.ref_mimeType r = "image/jpeg"
                           /\ Gateway.referenceType r = "ASSET") refs.
Proof.
  exact (proj1 (proj2 (proj2 (proj2
           (video_payload_cases "a trailer" "9:16" None None (Some ["f1"; "f2"; "f3"])))))
           "f1" ["f2"; "f3"] eq_refl).
Defined.

(** *** Polling for a generated video *)

Section Polling.

Import Gateway.

Variable getVideosOperation : nat -> Operation -> Reply Operation.

Lemma poll_bounds fuel :
  forall k operation result polls,
    pollUntilDone getVideosOperation fuel k operation = Some (result, polls) ->
    (k <= polls <= k + fuel)%nat
    /\ (polls = k <-> done operation = true)
    /\ (forall operation', result = Fulfilled operation' -> done operation' = true).
Proof.
  induction fuel as [|fuel IH]; intros k operation result polls; cbn [pollUntilDone];
    destruct (done operation) eqn:Hd.
  - intros H. inversion H; subst. repeat split; try lia; auto.
    intros operation' E. inversion E; subst. exact Hd.
  - discriminate.
  - intros H. inversion H; subst. repeat split; try lia; auto.
    intros operation' E. inversion E; subst. exact Hd.
  - destruct (getVideosOperation k operation) as [operation'|e].
    + intros H. apply IH in H as (Hb & _ & Hr). repeat split; try lia; try discriminate.
      exact Hr.
    + intros H. inversion H; subst. repeat split; try lia; try discriminate.
Qed.

Lemma poll_more_fuel fuel :
  forall k operation r fuel',
    pollUntilDone getVideosOperation fuel k operation = Some r -> (fuel <= fuel')%nat ->
    pollUntilDone getVideosOperation fuel' k operation = Some r.
Proof.
  induction fuel as [|fuel IH]; intros k operation r fuel'.
  - cbn [pollUntilDone]. destruct (done operation) eqn:Hd; [|discriminate].
    intros H _. destruct fuel'; cbn [pollUntilDone]; now rewrite Hd.
  - intros H Hf. destruct fuel' as [|fuel']; [lia|]. cbn [pollUntilDone] in *.
    destruct (done operation); [exact H|].
    destruct (getVideosOperation k operation); [|exact H].
    apply IH; [exact H | lia].
Qed.

Lemma poll_never_done fuel :
  never_done getVideosOperation ->
  forall k operation, done operation = false ->
    pollUntilDone getVideosOperation fuel k operation = None.
Proof.
  intros Hn. induction fuel as [|fuel IH]; intros k operation Hd; cbn [pollUntilDone];
    rewrite Hd; [reflexivity|].
  destruct (Hn k operation) as (operation' & -> & Hd'). now apply IH.
Qed.

End Polling.

(** X13.  The polling loop for a generated video stops at the first
    operation reported done or at the first poll that fails: an operation
    that is done at once is not polled, an operation it returns is done, and
    the number of polls, each after a wait of ten seconds, does not depend on
    how long the loop is allowed to run.  The loop has no bound of its own:
    on a server that never finishes it polls for ever. *)
Theorem polling_stops_only_when_done
    (getVideosOperation : nat -> Gateway.Operation -> Reply Gateway.Operation) :
  (forall fuel k operation result polls,
     Gateway.pollUntilDone getVideosOperation fuel k operation = Some (result, polls) ->
     (k <= polls <= k + fuel)%nat
     /\ (polls = k <-> Gateway.done operation = true)
     /\ (forall operation', result = Fulfilled operation' -> Gateway.done operation' = true)
     /\ (forall fuel', (fuel <= fuel')%nat ->
           Gateway.pollUntilDone getVideosOperation fuel' k operation = Some (result, polls)))
  /\ (never_done getVideosOperation ->
      forall fuel k operation, Gateway.done operation = false ->
        Gateway.pollUntilDone getVideosOperation fuel k operation = None).
Proof.
  split.
  - intros fuel k operation result polls H.
    destruct (poll_bounds getVideosOperation fuel k operation result polls H) as (A & B & C).
    repeat split; try apply A; try apply B; try exact C.
    intros fuel' Hf. exact (poll_more_fuel getVideosOperation fuel k operation _ fuel' H Hf).
  - intros Hn fuel k operation Hd. now apply poll_never_done.
Qed.

Lemma polling_stops_only_when_done_witness :
  Gateway.pollUntilDone Sample3.third_poll 5 0 Sample3.pending
  = Some (Fulfilled (Gateway.mkOperation true (Some "https://videos.example/v1?alt=media")),
          3%nat)
  /\ Gateway.pollUntilDone Sample3.third_poll 9 0 Sample3.pending
     = Some (Fulfilled (Gateway.mkOperation true (Some "https://videos.example/v1?alt=media")),
             3%nat).
Proof.
  split; [reflexivity|].
  exact (proj2 (proj2 (proj2 (proj1 (polling_stops_only_when_done Sample3.third_poll)
                                 5%nat 0%nat Sample3.pending _ _ eq_refl))) 9%nat
           ltac:(lia)).
Defined.

(** X14.  A video generation that fulfils does so with what the download
    of the finished operation's link gave, the link being extended by
    [&key=] and the API key; an operation that finishes without a link
    gives the error of a failed generation and nothing is downloaded.  A
    request the service rejects is rejected before any poll, and the outcome
    does not depend on how long the polling is allowed to run. *)
Theorem video_generation_outcome
    (generateVideos : Gateway.VideoPayload -> Reply Gateway.Operation)
    (getVideosOperation : nat -> Gateway.Operation -> Reply Gateway.Operation)
    (download : string -> Reply string) (API_KEY : string)
    (fuel : nat) (prompt aspectRatio : string) (image : option (string * string))
    (duration : option Z) (referenceImages : option (list string))
    (result : Reply string) (polls : nat) :
  Gateway.generateVideo generateVideos getVideosOperation download API_KEY fuel
    prompt aspectRatio image duration referenceImages = Some (result, polls) ->
  (forall url, result = Fulfilled url ->
     exists first final link,
       generateVideos (Gateway.videoPayload prompt aspectRatio image duration referenceImages)
       = Fulfilled first
       /\ Gateway.pollUntilDone getVideosOperation fuel 0 first = Some (Fulfilled final, polls)
       /\ Gateway.done final = true
       /\ Gateway.op_uri final = Some link /\ link <> EmptyString
       /\ download (link +:+ "&key=" +:+ API_KEY) = Fulfilled url)
  /\ (forall first final,
        generateVideos (Gateway.videoPayload prompt aspectRatio image duration referenceImages)
        = Fulfilled first ->
        Gateway.pollUntilDone getVideosOperation fuel 0 first = Some (Fulfilled final, polls) ->
        Gateway.truthy (Gateway.op_uri final) = false ->
        forall download',
          Gateway.generateVideo generateVideos getVideosOperation download' API_KEY fuel
            prompt aspectRatio image duration referenceImages
          = Some (Rejected "Video generation failed or returned no URI.", polls))
  /\ (forall e,
        generateVideos (Gateway.videoPayload prompt aspectRatio image duration referenceImages)
        = Rejected e -> result = Rejected e /\ polls = 0%nat)
  /\ (forall fuel', (fuel <= fuel')%nat ->
        Gateway.generateVideo generateVideos getVideosOperation download API_KEY fuel'
          prompt aspectRatio image duration referenceImages = Some (result, polls)).
Proof.
  unfold Gateway.generateVideo.
  destruct (generateVideos _) as [first|e0] eqn:Hg.
  - destruct (Gateway.pollUntilDone getVideosOperation fuel 0 first) as [[[final|e] n]|] eqn:Hp;
      [| |discriminate].
    + destruct (Gateway.truthy (Gateway.op_uri final)) eqn:Hu; cbn [negb]; intros H;
        inversion H; subst; clear H.
      * split; [|split; [|split]].
        -- intros url E. exists first, final.
           destruct (Gateway.op_uri final) as [[|c link]|] eqn:Hl; try discriminate.
           exists (String c link). repeat split; try assumption; try reflexivity.
           ++ exact (proj2 (proj2 (poll_bounds _ _ _ _ _ _ Hp)) final eq_refl).
           ++ discriminate.
        -- intros first' final' E1 E2 Hu'. congruence.
        -- discriminate.
        -- intros fuel' Hf.
           rewrite (poll_more_fuel getVideosOperation fuel 0 first _ fuel' Hp Hf).
           cbv beta iota. now rewrite Hu.
      * split; [|split; [|split]].
        -- discriminate.
        -- reflexivity.
        -- discriminate.
        -- intros fuel' Hf.
           rewrite (poll_more_fuel getVideosOperation fuel 0 first _ fuel' Hp Hf).
           cbv beta iota. now rewrite Hu.
    + intros H. inversion H; subst; clear H. split; [|split; [|split]].
      * discriminate.
      * intros first' final' E1 E2. congruence.
      * discriminate.
      * intros fuel' Hf.
        now rewrite (poll_more_fuel getVideosOperation fuel 0 first _ fuel' Hp Hf).
  - intros H. inversion H; subst; clear H. split; [|split; [|split]].
    + discriminate.
    + discriminate.
    + intros e E. inversion E; subst. now split.
    + reflexivity.
Qed.

Lemma video_generation_outcome_witness :
  exists first final link,
    Fulfilled Sample3.pending = Fulfilled first
    /\ Gateway.pollUntilDone Sample3.third_poll 5 0 first = Some (Fulfilled final, 3%nat)
    /\ Gateway.done final = true
    /\ Gateway.op_uri final = Some link /\ link <> EmptyString
    /\ Fulfilled (link +:+ "&key=" +:+ "K3Y") = Fulfilled
         "https://videos.example/v1?alt=media&key=K3Y".
Proof.
  exact (proj1 (video_generation_outcome (fun _ => Fulfilled Sample3.pending)
                  Sample3.third_poll (fun url => Fulfilled url) "K3Y" 5 "a sunrise" "16:9"
                  None None None _ _ eq_refl) _ eq_refl).
Defined.

(** ** Failures of the frame extraction *)

Section FrameFailures.

Import JS GeminiService.

Lemma progressed_app t1 t2 : progressed (t1 ++ t2) = progressed t1 ++ progressed t2.
Proof.
  induction t1 as [|[] t1 IH]; cbn; now rewrite ?IH.
Qed.

Lemma progressed_rounds d N l :
  progressed (flat_map (round d N) l) = map (frame_progress N) l.
Proof. induction l as [|i l IH]; cbn; now rewrite ?IH. Qed.

(** The loop up to a seek that fails. *)
Lemma capture_seek_fails v d N k rest :
  forall i acc b,
    (forall j, (i <= j < i + k)%nat -> seeked v (frame_time d N j) = true) ->
    seeked v (frame_time d N (i + k)) = false ->
    capture v d N (k + S rest) i acc b
    = (Threw "Error seeking video to extract frame.",
       mkBrowser (objectURLs b) (minted b)
         (trace b ++ flat_map (round d N) (seq i k) ++ [Seek (frame_time d N (i + k))])).
Proof.
  induction k as [|k IH]; intros i acc b Hs Hf.
  - cbn [Nat.add capture]. rewrite bind_modify. rewrite Nat.add_0_r in Hf.
    rewrite Hf, bind_throw. now rewrite Nat.add_0_r.
  - cbn [Nat.add capture]. rewrite bind_modify, (Hs i) by lia.
    rewrite bind_ret, !bind_modify.
    rewrite IH; [| intros j Hj; apply Hs; lia | now replace (S i + k)%nat with (i + S k)%nat by lia].
    cbn [seq flat_map objectURLs minted trace log]. f_equal. f_equal.
    unfold round at 2. cbn [app]. rewrite <- !app_assoc. cbn [app].
    now replace (S i + k)%nat with (i + S k)%nat by lia.
Qed.

Lemma Promise_all_rejected {S} (l : list (option string)) (s : S) :
  In None l ->
  Promise_all (map promise_of l) s
  = (Threw "Failed to extract video frame, possibly due to CORS policy.", s).
Proof.
  induction l as [|[x|] l IH]; intros H.
  - destruct H.
  - destruct H as [H|H]; [discriminate|].
    cbn [map promise_of Promise_all]. now rewrite (bind_threw _ _ _ _ _ (IH H)).
  - reflexivity.
Qed.

Lemma readFrames_seek_fails v d N k b :
  loadedmetadata v = true -> duration v = finite d -> (0 < d)%Q -> (k < N)%nat ->
  (forall j, (j < k)%nat -> seeked v (frame_time d N j) = true) ->
  seeked v (frame_time d N k) = false ->
  readFrames v N b
  = (Threw "Error seeking video to extract frame.",
     mkBrowser (objectURLs b) (minted b)
       (trace b ++ flat_map (round d N) (seq 0 k) ++ [Seek (frame_time d N k)])).
Proof.
  intros Hl Hd Hpos Hk Hs Hf. unfold readFrames. rewrite Hl, bind_ret, Hd. cbn zeta.
  assert (Hz : le_zero (finite d) = false).
  { cbn. destruct (Qle_bool d 0) eqn:E; [|reflexivity].
    apply Qle_bool_iff in E. exfalso. exact (Qlt_not_le _ _ Hpos E). }
  rewrite Hz. cbn [isFinite negb orb].
  replace N with (k + S (N - S k))%nat at 2 by lia.
  now rewrite (bind_threw _ _ _ _ _
                 (capture_seek_fails v d N k (N - S k) 0 [] b
                    (fun j Hj => Hs j (proj2 Hj)) Hf)).
Qed.

Lemma readFrames_encode_fails v d N k b :
  loadedmetadata v = true -> duration v = finite d -> (0 < d)%Q -> (k < N)%nat ->
  (forall j, (j < N)%nat -> seeked v (frame_time d N j) = true) ->
  toBlob v (frame_time d N k) = None ->
  readFrames v N b
  = (Threw "Failed to extract video frame, possibly due to CORS policy.",
     mkBrowser (objectURLs b) (minted b) (trace b ++ flat_map (round d N) (seq 0 N))).
Proof.
  intros Hl Hd Hpos Hk Hs Hf. unfold readFrames. rewrite Hl, bind_ret, Hd. cbn zeta.
  assert (Hz : le_zero (finite d) = false).
  { cbn. destruct (Qle_bool d 0) eqn:E; [|reflexivity].
    apply Qle_bool_iff in E. exfalso. exact (Qlt_not_le _ _ Hpos E). }
  rewrite Hz. cbn [isFinite negb orb].
  rewrite (bind_returned _ _ _ _ _
             (capture_run v d N N 0 [] b (fun j Hj => Hs j (proj2 Hj)))).
  cbn [app]. rewrite <- (map_map (fun j => toBlob v (frame_time d N j)) promise_of).
  apply Promise_all_rejected. rewrite <- Hf.
  apply (in_map (fun j => toBlob v (frame_time d N j))), in_seq. lia.
Qed.

Lemma readFrames_not_loaded v N b :
  loadedmetadata v = false ->
  readFrames v N b
  = (Threw "Could not load video. This may be due to web security (CORS) restrictions. Try a different URL or upload the file directly.", b).
Proof. intros Hl. unfold readFrames. now rewrite Hl, bind_throw. Qed.

Lemma opened_trace src b : trace (opened src b) = trace b.
Proof. now destruct src. Qed.

End FrameFailures.

(** X15.  How the frame extraction fails on a video with a duration above
    zero.  When the seek to frame [k] fails, it stops there with the seek
    error: the [k] frames before it were drawn and reported and nothing comes
    after the failed seek.  When instead every seek completes and some frame
    does not encode, the loop is not cut short: all [N] frames are sought,
    drawn and reported up to 50, and the encoding error is raised only then.
    A video whose metadata does not load is rejected before anything is
    sought.  No frame is returned in any of these cases. *)
Theorem frame_extraction_failures
    (element : GeminiService.VideoSource -> GeminiService.Video)
    (src : GeminiService.VideoSource) (N k : nat) (d : Q) (b : GeminiService.Browser) :
  GeminiService.duration (element src) = JS.finite d ->
  (0 < d)%Q ->
  (k < N)%nat ->
  (GeminiService.loadedmetadata (element src) = true ->
   (forall j, (j < k)%nat ->
      GeminiService.seeked (element src) (GeminiService.frame_time d N j) = true) ->
   GeminiService.seeked (element src) (GeminiService.frame_time d N k) = false ->
   exists b',
     GeminiService._processVideoToFrames element src N b
     = (Threw "Error seeking video to extract frame.", b')
     /\ GeminiService.trace b'
        = GeminiService.trace b ++ flat_map (round d N) (seq 0 k)
          ++ [GeminiService.Seek (GeminiService.frame_time d N k)]
     /\ drawn (GeminiService.trace b')
        = drawn (GeminiService.trace b) ++ map (GeminiService.frame_time d N) (seq 0 k))
  /\ (GeminiService.loadedmetadata (element src) = true ->
      (forall j, (j < N)%nat ->
         GeminiService.seeked (element src) (GeminiService.frame_time d N j) = true) ->
      GeminiService.toBlob (element src) (GeminiService.frame_time d N k) = None ->
      exists b',
        GeminiService._processVideoToFrames element src N b
        = (Threw "Failed to extract video frame, possibly due to CORS policy.", b')
        /\ drawn (GeminiService.trace b')
           = drawn (GeminiService.trace b) ++ map (GeminiService.frame_time d N) (seq 0 N)
        /\ progressed (GeminiService.trace b')
           = progressed (GeminiService.trace b) ++ map (frame_progress N) (seq 0 N))
  /\ (GeminiService.loadedmetadata (element src) = false ->
      exists b',
        GeminiService._processVideoToFrames element src N b
        = (Threw "Could not load video. This may be due to web security (CORS) restrictions. Try a different URL or upload the file directly.", b')
        /\ GeminiService.trace b' = GeminiService.trace b).
Proof.
  intros Hd Hpos Hk. split; [|split].
  - intros Hl Hs Hf.
    edestruct (process_outcome element src N b) as (b' & E & Ht).
    { apply (readFrames_seek_fails (element src) d N k _ Hl Hd Hpos Hk Hs Hf). }
    exists b'. split; [exact E|]. rewrite Ht. cbn [GeminiService.trace].
    rewrite opened_trace. split; [reflexivity|].
    rewrite !drawn_app, drawn_rounds. cbn. now rewrite app_nil_r.
  - intros Hl Hs Hf.
    edestruct (process_outcome element src N b) as (b' & E & Ht).
    { apply (readFrames_encode_fails (element src) d N k _ Hl Hd Hpos Hk Hs Hf). }
    exists b'. split; [exact E|]. rewrite Ht. cbn [GeminiService.trace].
    rewrite opened_trace. split.
    + now rewrite drawn_app, drawn_rounds.
    + now rewrite progressed_app, progressed_rounds.
  - intros Hl.
    edestruct (process_outcome element src N b) as (b' & E & Ht).
    { apply (readFrames_not_loaded (element src) N _ Hl). }
    exists b'. split; [exact E|]. rewrite Ht. apply opened_trace.
Qed.

Lemma frame_extraction_failures_witness :
  exists b',
    GeminiService._processVideoToFrames (fun _ => Sample4.stuck)
      (GeminiService.SourceFile "clip.mp4") 4 Sample.browser
    = (Threw "Error seeking video to extract frame.", b')
    /\ GeminiService.trace b'
       = GeminiService.trace Sample.browser ++ flat_map (round 10 4) (seq 0 2)
         ++ [GeminiService.Seek (GeminiService.frame_time 10 4 2)]
    /\ drawn (GeminiService.trace b')
       = drawn (GeminiService.trace Sample.browser)
         ++ map (GeminiService.frame_time 10 4) (seq 0 2).
Proof.
  apply (proj1 (frame_extraction_failures (fun _ => Sample4.stuck)
                  (GeminiService.SourceFile "clip.mp4") 4 2 10 Sample.browser
                  eq_refl eq_refl ltac:(lia))).
  - reflexivity.
  - intros [|[|j]] Hj; [reflexivity | reflexivity | lia].
  - reflexivity.
Defined.

(** One frame that does not encode costs the whole extraction, after all
    four frames were drawn. *)
Example tainted_clip_is_read_to_the_end :
  fst (GeminiService._processVideoToFrames (fun _ => Sample4.tainted)
         (GeminiService.SourceFile "clip.mp4") 4 Sample.browser)
  = Threw "Failed to extract video frame, possibly due to CORS policy."
  /\ length (drawn (GeminiService.trace
                      (snd (GeminiService._processVideoToFrames (fun _ => Sample4.tainted)
                              (GeminiService.SourceFile "clip.mp4") 4 Sample.browser))))
     = 4%nat.
Proof. vm_compute. split; reflexivity. Qed.

(** ** Video analysis *)

Section AnalysisFacts.

Import JS GeminiService Gateway.

Variable element : VideoSource -> Video.
Variable generateContent : AnalysisRequest -> Reply string.

Lemma bind_inBrowser_returned {A B} (m : Eff.t Browser A) (k : A -> Eff.t Analysis B)
    (s : Analysis) a b' :
  m (fst s) = (Returned a, b') ->
  Eff.bind (inBrowser m) k s = k a (b', snd s).
Proof. intros H. unfold Eff.bind, inBrowser. now rewrite H. Qed.

Lemma bind_inBrowser_threw {A B} (m : Eff.t Browser A) (k : A -> Eff.t Analysis B)
    (s : Analysis) e b' :
  m (fst s) = (Threw e, b') ->
  Eff.bind (inBrowser m) k s = (Threw e, (b', snd s)).
Proof. intros H. unfold Eff.bind, inBrowser. now rewrite H. Qed.

(** What follows the extraction in both analysis calls. *)
Lemma ask_outcome (request : AnalysisRequest) b (sent : list AnalysisRequest) :
  (onProgress 51 ;;;
   response <- send generateContent request ;;
   onProgress 100 ;;;
   Eff.ret response) (b, sent)
  = match generateContent request with
    | Fulfilled answer =>
        (Returned answer, (log (Progress 100) (log (Progress 51) b), sent ++ [request]))
    | Rejected e => (Threw e, (log (Progress 51) b, sent ++ [request]))
    end.
Proof.
  unfold onProgress, send, inBrowser, await, Eff.bind, Eff.modify, Eff.ret, Eff.throw.
  cbn [fst snd]. destruct (generateContent request); reflexivity.
Qed.

Lemma frames_read src N d b :
  loadedmetadata (element src) = true -> duration (element src) = finite d -> (0 < d)%Q ->
  (forall i, (i < N)%nat -> seeked (element src) (frame_time d N i) = true
                            /\ is_Some (toBlob (element src) (frame_time d N i))) ->
  exists frames b',
    _processVideoToFrames element src N b = (Returned frames, b')
    /\ length frames = N
    /\ map Some frames = map (fun i => toBlob (element src) (frame_time d N i)) (seq 0 N)
    /\ progressed (trace b') = progressed (trace b) ++ map (frame_progress N) (seq 0 N)
    /\ drawn (trace b') = drawn (trace b) ++ map (frame_time d N) (seq 0 N).
Proof.
  intros Hl Hd Hpos Hok.
  edestruct (process_outcome element src N b) as (b' & E & Ht).
  { apply (readFrames_valid (element src) d N _ Hl Hd Hpos Hok). }
  eexists _, b'. split; [exact E|]. split; [|split; [|split]].
  - now rewrite length_map, length_seq.
  - rewrite map_map. apply map_ext_in. intros i Hi. apply in_seq in Hi.
    destruct (Hok i) as [_ [data Hdata]]; [lia|]. now rewrite Hdata.
  - rewrite Ht. cbn [trace]. now rewrite opened_trace, progressed_app, progressed_rounds.
  - rewrite Ht. cbn [trace]. now rewrite opened_trace, drawn_app, drawn_rounds.
Qed.

Lemma frame_progress_bounds N i :
  (i < N)%nat -> (0 < frame_progress N i)%Q /\ (frame_progress N i <= 50)%Q.
Proof.
  intros H. unfold frame_progress.
  assert (P : (0 < inject_Z (Z.of_nat N))%Q) by (rewrite <- (Zlt_Qlt 0); lia).
  assert (P1 : (0 < inject_Z (Z.of_nat (i + 1)))%Q) by (rewrite <- (Zlt_Qlt 0); lia).
  split.
  - apply Qmult_lt_0_compat; [|reflexivity].
    unfold Qdiv. apply Qmult_lt_0_compat; [exact P1 | now apply Qinv_lt_0_compat].
  - apply Qle_trans with (1 * 50)%Q; [|discriminate].
    apply Qmult_le_compat_r; [|discriminate].
    apply Qle_shift_div_r; [exact P|]. rewrite Qmult_1_l, <- Zle_Qle. lia.
Qed.

Lemma frame_progress_increasing N i j :
  (1 <= N)%nat -> (i < j)%nat -> (frame_progress N i < frame_progress N j)%Q.
Proof.
  intros HN H. unfold frame_progress.
  assert (P : (0 < inject_Z (Z.of_nat N))%Q) by (rewrite <- (Zlt_Qlt 0); lia).
  apply Qmult_lt_compat_r; [reflexivity|].
  unfold Qdiv. apply Qmult_lt_compat_r; [now apply Qinv_lt_0_compat|].
  rewrite <- Zlt_Qlt. lia.
Qed.

End AnalysisFacts.

(** X16.  For a video whose ten frames can be read, the analysis sends
    one request to the pro model: the prompt first, then the ten frames as
    JPEG parts in the order of their time stamps, and no schema.  The answer
    of the gateway is returned, or its error thrown.  Progress is reported as
    ten values that rise in equal steps to 50, then 51 before the request
    and, only when the request is answered, 100. *)
Theorem analysis_request_and_progress
    (element : GeminiService.VideoSource -> GeminiService.Video)
    (generateContent : Gateway.AnalysisRequest -> Reply string)
    (prompt : string) (src : GeminiService.VideoSource) (d : Q) (s : Gateway.Analysis) :
  GeminiService.loadedmetadata (element src) = true ->
  GeminiService.duration (element src) = JS.finite d ->
  (0 < d)%Q ->
  (forall i, (i < 10)%nat ->
     GeminiService.seeked (element src) (GeminiService.frame_time d 10 i) = true
     /\ is_Some (GeminiService.toBlob (element src) (GeminiService.frame_time d 10 i))) ->
  exists frames b',
    map Some frames
    = map (fun i => GeminiService.toBlob (element src) (GeminiService.frame_time d 10 i))
        (seq 0 10)
    /\ (let request :=
          Gateway.mkAnalysisRequest "gemini-2.5-pro"
            (Gateway.text_part prompt :: map (Gateway.inline_data "image/jpeg") frames)
            None None in
        Gateway.analyzeVideo element generateContent prompt src s
        = (match generateContent request with
           | Fulfilled answer => Returned answer
           | Rejected e => Threw e
           end, (b', snd s ++ [request]))
        /\ progressed (GeminiService.trace b')
           = progressed (GeminiService.trace (fst s))
             ++ map (frame_progress 10) (seq 0 10)
             ++ 51%Q :: match generateContent request with
                        | Fulfilled _ => [100%Q]
                        | Rejected _ => []
                        end)
    /\ (forall i, (i < 10)%nat -> (0 < frame_progress 10 i)%Q /\ (frame_progress 10 i <= 50)%Q)
    /\ (forall i j, (i < j)%nat -> (frame_progress 10 i < frame_progress 10 j)%Q).
Proof.
  intros Hl Hd Hpos Hok.
  destruct (frames_read element src 10 d (fst s) Hl Hd Hpos Hok)
    as (frames & b1 & E & _ & Hf & Hp & _).
  exists frames.
  destruct (generateContent
              (Gateway.mkAnalysisRequest "gemini-2.5-pro"
                 (Gateway.text_part prompt :: map (Gateway.inline_data "image/jpeg") frames)
                 None None)) as [answer|e] eqn:Hg.
  - exists (GeminiService.log (GeminiService.Progress 100)
              (GeminiService.log (GeminiService.Progress 51) b1)).
    split; [exact Hf|]. split; [|split].
    + cbn zeta. split.
      * unfold Gateway.analyzeVideo. rewrite (bind_inBrowser_returned _ _ _ _ _ E).
        rewrite ask_outcome. unfold Gateway.promptParts. now rewrite Hg.
      * cbn [GeminiService.log GeminiService.trace].
        rewrite !progressed_app, Hp, Hg. cbn [progressed app]. now rewrite <- !app_assoc.
    + intros i Hi. now apply frame_progress_bounds.
    + intros i j Hij. apply frame_progress_increasing; [lia | exact Hij].
  - exists (GeminiService.log (GeminiService.Progress 51) b1).
    split; [exact Hf|]. split; [|split].
    + cbn zeta. split.
      * unfold Gateway.analyzeVideo. rewrite (bind_inBrowser_returned _ _ _ _ _ E).
        rewrite ask_outcome. unfold Gateway.promptParts. now rewrite Hg.
      * cbn [GeminiService.log GeminiService.trace].
        rewrite !progressed_app, Hp, Hg. cbn [progressed app]. now rewrite <- !app_assoc.
    + intros i Hi. now apply frame_progress_bounds.
    + intros i j Hij. apply frame_progress_increasing; [lia | exact Hij].
Qed.

Lemma analysis_request_and_progress_witness :
  exists frames b',
    map Some frames
    = map (fun i => GeminiService.toBlob Sample.clip (GeminiService.frame_time 10 10 i))
        (seq 0 10)
    /\ (let request :=
          Gateway.mkAnalysisRequest "gemini-2.5-pro"
            (Gateway.text_part "What happens?"
             :: map (Gateway.inline_data "image/jpeg") frames)
            None None in
        Gateway.analyzeVideo (fun _ => Sample.clip) Sample5.describe "What happens?"
          (GeminiService.SourceFile "clip.mp4") Sample5.idle
        = (match Sample5.describe request with
           | Fulfilled answer => Returned answer
           | Rejected e => Threw e
           end, (b', snd Sample5.idle ++ [request]))
        /\ progressed (GeminiService.trace b')
           = progressed (GeminiService.trace (fst Sample5.idle))
             ++ map (frame_progress 10) (seq 0 10)
             ++ 51%Q :: match Sample5.describe request with
                        | Fulfilled _ => [100%Q]
                        | Rejected _ => []
                        end)
    /\ (forall i, (i < 10)%nat -> (0 < frame_progress 10 i)%Q /\ (frame_progress 10 i <= 50)%Q)
    /\ (forall i j, (i < j)%nat -> (frame_progress 10 i < frame_progress 10 j)%Q).
Proof.
  apply (analysis_request_and_progress (fun _ => Sample.clip) Sample5.describe
           "What happens?" (GeminiService.SourceFile "clip.mp4") 10 Sample5.idle).
  - reflexivity.
  - reflexivity.
  - reflexivity.
  - intros i _. split; [reflexivity | eexists; reflexivity].
Defined.

(** X17.  The structured analysis reads fifteen frames and sends them
    after the prompt in one request, which asks for JSON exactly when a
    schema is given and then carries that schema; the answer of the gateway
    is returned, or its error thrown. *)
Theorem structured_analysis_request
    (element : GeminiService.VideoSource -> GeminiService.Video)
    (generateContent : Gateway.AnalysisRequest -> Reply string)
    (prompt : string) (responseSchema : option string)
    (src : GeminiService.VideoSource) (d : Q) (s : Gateway.Analysis) :
  GeminiService.loadedmetadata (element src) = true ->
  GeminiService.duration (element src) = JS.finite d ->
  (0 < d)%Q ->
  (forall i, (i < 15)%nat ->
     GeminiService.seeked (element src) (GeminiService.frame_time d 15 i) = true
     /\ is_Some (GeminiService.toBlob (element src) (GeminiService.frame_time d 15 i))) ->
  exists frames b' request,
    Gateway.getVideoAnalysis element generateContent src prompt responseSchema s
    = (match generateContent request with
       | Fulfilled answer => Returned answer
       | Rejected e => Threw e
       end, (b', snd s ++ [request]))
    /\ Gateway.parts request
       = Gateway.text_part prompt :: map (Gateway.inline_data "image/jpeg") frames
    /\ map Some frames
       = map (fun i => GeminiService.toBlob (element src) (GeminiService.frame_time d 15 i))
           (seq 0 15)
    /\ Gateway.responseSchema request = responseSchema
    /\ Gateway.responseMimeType request
       = (if bool_decide (is_Some responseSchema) then Some "application/json" else None)
    /\ Gateway.analysis_model request = "gemini-2.5-pro".
Proof.
  intros Hl Hd Hpos Hok.
  destruct (frames_read element src 15 d (fst s) Hl Hd Hpos Hok)
    as (frames & b1 & E & _ & Hf & _ & _).
  exists frames.
  set (request :=
         match responseSchema with
         | Some schema =>
             Gateway.mkAnalysisRequest "gemini-2.5-pro" (Gateway.promptParts prompt frames)
               (Some "application/json") (Some schema)
         | None =>
             Gateway.mkAnalysisRequest "gemini-2.5-pro" (Gateway.promptParts prompt frames)
               None None
         end).
  assert (R : Gateway.getVideoAnalysis element generateContent src prompt responseSchema s
              = match generateContent request with
                | Fulfilled answer =>
                    (Returned answer,
                     (GeminiService.log (GeminiService.Progress 100)
                        (GeminiService.log (GeminiService.Progress 51) b1),
                      snd s ++ [request]))
                | Rejected e =>
                    (Threw e, (GeminiService.log (GeminiService.Progress 51) b1,
                               snd s ++ [request]))
                end).
  { unfold Gateway.getVideoAnalysis. rewrite (bind_inBrowser_returned _ _ _ _ _ E).
    cbn zeta. now rewrite ask_outcome. }
  destruct (generateContent request) as [answer|e] eqn:Hg;
    eexists _, request; rewrite Hg; (split; [exact R|]);
    subst request; destruct responseSchema; repeat split; try exact Hf.
Qed.

Lemma structured_analysis_request_witness :
  exists frames b' request,
    Gateway.getVideoAnalysis (fun _ => Sample.clip) Sample5.describe
      (GeminiService.SourceFile "clip.mp4") "List the scenes." (Some "scenes") Sample5.idle
    = (match Sample5.describe request with
       | Fulfilled answer => Returned answer
       | Rejected e => Threw e
       end, (b', snd Sample5.idle ++ [request]))
    /\ Gateway.parts request
       = Gateway.text_part "List the scenes."
         :: map (Gateway.inline_data "image/jpeg") frames
    /\ map Some frames
       = map (fun i => GeminiService.toBlob Sample.clip (GeminiService.frame_time 10 15 i))
           (seq 0 15)
    /\ Gateway.responseSchema request = Some "scenes"
    /\ Gateway.responseMimeType request
       = (if bool_decide (is_Some (Some "scenes")) then Some "application/json" else None)
    /\ Gateway.analysis_model request = "gemini-2.5-pro".
Proof.
  apply (structured_analysis_request (fun _ => Sample.clip) Sample5.describe
           "List the scenes." (Some "scenes") (GeminiService.SourceFile "clip.mp4") 10
           Sample5.idle).
  - reflexivity.
  - reflexivity.
  - reflexivity.
  - intros i _. split; [reflexivity | eexists; reflexivity].
Defined.

(** X18.  When the frames of a video cannot be read, both analysis calls
    fail with the error of the extraction: no request is sent to the
    gateway, and neither 51 nor 100 is reported as progress. *)
Theorem failed_extraction_sends_nothing
    (element : GeminiService.VideoSource -> GeminiService.Video)
    (generateContent : Gateway.AnalysisRequest -> Reply string)
    (prompt : string) (responseSchema : option string)
    (src : GeminiService.VideoSource) (s : Gateway.Analysis) :
  (forall e b1,
     GeminiService._processVideoToFrames element src 10 (fst s) = (Threw e, b1) ->
     Gateway.analyzeVideo element generateContent prompt src s = (Threw e, (b1, snd s)))
  /\ (forall e b1,
        GeminiService._processVideoToFrames element src 15 (fst s) = (Threw e, b1) ->
        Gateway.getVideoAnalysis element generateContent src prompt responseSchema s
        = (Threw e, (b1, snd s)))
  /\ (GeminiService.loadedmetadata (element src) = true ->
      invalid_duration (GeminiService.duration (element src)) ->
      exists b',
        Gateway.analyzeVideo element generateContent prompt src s
        = (Threw "Video duration is invalid or could not be determined.", (b', snd s))
        /\ progressed (GeminiService.trace b') = progressed (GeminiService.trace (fst s))).
Proof.
  split; [|split].
  - intros e b1 E. unfold Gateway.analyzeVideo.
    now rewrite (bind_inBrowser_threw _ _ _ _ _ E).
  - intros e b1 E. unfold Gateway.getVideoAnalysis.
    now rewrite (bind_inBrowser_threw _ _ _ _ _ E).
  - intros Hl Hd.
    edestruct (process_outcome element src 10 (fst s)) as (b' & E & Ht).
    { apply (readFrames_invalid (element src) 10 _ Hl Hd). }
    exists b'. split.
    + unfold Gateway.analyzeVideo. now rewrite (bind_inBrowser_threw _ _ _ _ _ E).
    + now rewrite Ht, opened_trace.
Qed.
